(** * Shallow embedding of the streaming handler of [main.go]

    [Handler.ServeHTTP] parses the [size] and [buffer] query parameters,
    opens [/dev/urandom], sends the 200 status and the content type, and
    then copies [size] bytes to the response in chunks of at most
    [buffer] bytes.  The embedding below follows the Go code statement by
    statement.  The outside world (the file system, the byte source and
    the response writer, and how much heap the Go runtime can hand out)
    is an oracle [env]; everything the handler does
    to it is recorded in a trace of [event]s.  Logging is not modelled:
    it never changes the control flow.  The copy loop may not terminate
    (for [buffer=0]), so it runs on fuel; running out of fuel is a
    distinct outcome, never confused with a return. *)

From Stdlib Require Import ZArith List String Ascii Bool Lia.
Import ListNotations.
Open Scope Z_scope.

(** ** Constants *)

(** [defaultDataSize = 1 * (1 << 30)] *)
Definition defaultDataSize : Z := 1 * Z.shiftl 1 30.

(** [defaultBufferSize = 32 * (1 << 10)] *)
Definition defaultBufferSize : Z := 32 * Z.shiftl 1 10.

(** ** [strconv.ParseInt(text, 10, 64)] *)

(** The value of a decimal digit.  With base 10 (not 0) Go's [ParseUint]
    accepts no underscore and no letter digit, so only ['0'..'9']. *)
Definition digit_val (c : ascii) : option Z :=
  let n := nat_of_ascii c in
  if (48 <=? n)%nat && (n <=? 57)%nat then Some (Z.of_nat (n - 48)) else None.

Fixpoint parse_digits (s : string) (acc : Z) : option Z :=
  match s with
  | EmptyString => Some acc
  | String c s' =>
      match digit_val c with
      | None => None
      | Some d => parse_digits s' (acc * 10 + d)
      end
  end.

(** [strconv.ParseUint(s, 10, 64)]: the empty string is a syntax error.
    The value is computed in [Z]; the 64-bit overflow check of Go is
    subsumed by the [int64] range check of [parse_int] below, which
    rejects everything above [2^63] anyway. *)
Definition parse_uint (s : string) : option Z :=
  match s with
  | EmptyString => None
  | _ => parse_digits s 0
  end.

(** [cutoff := uint64(1 << uint(bitSize-1))] with [bitSize = 64]. *)
Definition cutoff : Z := Z.shiftl 1 63.

(** [strconv.ParseInt(s, 10, 64)]: an optional sign, then [ParseUint],
    then the [int64] range check. *)
Definition parse_int (s : string) : option Z :=
  match s with
  | EmptyString => None
  | String c rest =>
      let '(neg, body) :=
        if Ascii.eqb c "+"%char then (false, rest)
        else if Ascii.eqb c "-"%char then (true, rest)
        else (false, s) in
      match parse_uint body with
      | None => None
      | Some un =>
          if neg then (if un >? cutoff then None else Some (- un))
          else (if un >=? cutoff then None else Some un)
      end
  end.

(** ** [r.URL.Query().Get(key)] *)

(** The parsed query in the order of the URL; [url.Values.Get] returns
    the first value of the key, or the empty string when it is absent. *)
Definition query := list (string * string).

Fixpoint query_get (q : query) (key : string) : string :=
  match q with
  | [] => EmptyString
  | (k, v) :: q' => if String.eqb k key then v else query_get q' key
  end.

(** The parameter block of [ServeHTTP]:
<<
    dataSize := defaultDataSize
    text := r.URL.Query().Get(key)
    if text is not empty { value, err := strconv.ParseInt(text, 10, 64); if err != nil { 400; return }; dataSize = int(value) }
>>
    [None] is the parse failure that answers 400. *)
Definition get_param (q : query) (key : string) (default : Z) : option Z :=
  let text := query_get q key in
  match text with
  | EmptyString => Some default
  | _ => parse_int text
  end.

(** ** The outside world *)

(** The result of an [io.Reader.Read] or [http.ResponseWriter.Write]
    call: the count [n] and whether [err != nil]. *)
Record io_result := mk_io { io_n : Z; io_failed : bool }.

(** [open_ok]: whether [os.Open("/dev/urandom")] succeeds; [read_res i n]
    and [write_res i n]: the result of the [i]-th read (write) of a
    buffer of length [n]; [alloc_ok n]: whether the Go runtime finds
    memory for a heap object of [n > 0] bytes (when it does not,
    [mallocgc] stops the process with a fatal out-of-memory error). *)
Record env := mk_env {
  open_ok : bool;
  read_res : nat -> Z -> io_result;
  write_res : nat -> Z -> io_result;
  alloc_ok : Z -> bool
}.

(** What the handler does to the outside world. *)
Inductive event :=
| EvOpen                          (* os.Open succeeded *)
| EvOpenFailed                    (* os.Open returned an error *)
| EvSetHeader (k v : string)      (* w.Header().Set(k, v) *)
| EvWriteHeader (code : Z)        (* w.WriteHeader(code) *)
| EvRead (len : Z) (r : io_result)  (* dataFile.Read(buf[0:len]) *)
| EvWrite (len : Z) (r : io_result) (* w.Write(buf[0:len]) *)
| EvClose.                        (* the deferred dataFile.Close() *)

(** ** [make([]byte, bufferSize)]

    The Go runtime's [makeslice] panics (len out of range) when the
    length is negative or the allocation exceeds [maxAlloc], which is
    [1 << 48] on 64-bit Linux.  Otherwise it calls [mallocgc]: a length
    of [0] allocates nothing (it returns [&zerobase]); a positive length
    needs that many bytes of heap, and when the runtime cannot get them
    it throws a fatal out-of-memory error, which no [recover] or deferred
    call sees: the process exits.  Which lengths the runtime can serve
    is up to the host ([alloc_ok]); at [1 << 48] it never can. *)
Definition maxAlloc : Z := Z.shiftl 1 48.

Definition make_panics (len : Z) : bool := (len <? 0) || (maxAlloc <? len).

(** [mallocgc] throws for a length [make_panics] lets through. *)
Definition alloc_fails (e : env) (len : Z) : bool := (0 <? len) && negb (alloc_ok e len).

(** The memory a host with 16 GiB to spare can hand out. *)
Definition alloc_16g (n : Z) : bool := n <=? Z.shiftl 1 34.

(** ** The copy loop *)

Record lstate := mk_lstate {
  pending : Z;          (* pendingSize *)
  iter : nat;           (* number of completed iterations *)
  trace : list event
}.

Inductive step_result :=
| Continue (st : lstate)
| Abort (st : lstate).

(** One iteration of [for pendingSize > 0 { ... }], entered with
    [pendingSize > 0]. *)
Definition step (e : env) (bufferSize : Z) (st : lstate) : step_result :=
  let pendingSize := pending st in
  let readSize := if pendingSize >? bufferSize then bufferSize else pendingSize in
  let r := read_res e (iter st) readSize in
  let tr1 := trace st ++ [EvRead readSize r] in
  if io_failed r then Abort (mk_lstate pendingSize (iter st) tr1)
  else if negb (io_n r =? readSize) then Abort (mk_lstate pendingSize (iter st) tr1)
  else
    let w := write_res e (iter st) readSize in
    let tr2 := tr1 ++ [EvWrite readSize w] in
    if io_failed w then Abort (mk_lstate pendingSize (iter st) tr2)
    else if negb (io_n w =? readSize) then Abort (mk_lstate pendingSize (iter st) tr2)
    else Continue (mk_lstate (pendingSize - readSize) (S (iter st)) tr2).

Inductive loop_outcome := LoopDone | LoopAborted | LoopOutOfFuel.

Fixpoint run_loop (fuel : nat) (e : env) (bufferSize : Z) (st : lstate)
  : loop_outcome * lstate :=
  if pending st >? 0 then
    match fuel with
    | O => (LoopOutOfFuel, st)
    | S fuel' =>
        match step e bufferSize st with
        | Continue st' => run_loop fuel' e bufferSize st'
        | Abort st' => (LoopAborted, st')
        end
    end
  else (LoopDone, st).

(** ** [ServeHTTP] *)

Inductive outcome :=
| Returned      (* the handler returned *)
| Panicked      (* the handler panicked (deferred calls have run) *)
| OutOfFuel     (* the copy loop was still running when the fuel ran out *)
| Fatal.        (* the runtime stopped the process (deferred calls do not run) *)

Record result := mk_result { res_outcome : outcome; res_trace : list event }.

Definition headers_200 : list event :=
  [EvOpen; EvSetHeader "Content-Type"%string "application/octet-stream"%string; EvWriteHeader 200].

Definition serve_http (fuel : nat) (e : env) (q : query) : result :=
  match get_param q "size"%string defaultDataSize with
  | None => mk_result Returned [EvWriteHeader 400]
  | Some dataSize =>
  match get_param q "buffer"%string defaultBufferSize with
  | None => mk_result Returned [EvWriteHeader 400]
  | Some bufferSize =>
  if negb (open_ok e) then mk_result Returned [EvOpenFailed; EvWriteHeader 500]
  else
    (* from here on the deferred Close runs on every exit *)
    if make_panics bufferSize then mk_result Panicked (headers_200 ++ [EvClose])
    else if alloc_fails e bufferSize then mk_result Fatal headers_200
    else
      match run_loop fuel e bufferSize (mk_lstate dataSize 0 headers_200) with
      | (LoopOutOfFuel, st) => mk_result OutOfFuel (trace st)
      | (_, st) => mk_result Returned (trace st ++ [EvClose])
      end
  end
  end.

(** ** Observations on a trace *)

(** The status of the response: the first [WriteHeader] call. *)
Fixpoint status (tr : list event) : option Z :=
  match tr with
  | [] => None
  | EvWriteHeader c :: _ => Some c
  | _ :: tr' => status tr'
  end.

(** The lengths of the buffers passed to [Read] and to [Write]. *)
Fixpoint reads (tr : list event) : list Z :=
  match tr with
  | [] => []
  | EvRead n _ :: tr' => n :: reads tr'
  | _ :: tr' => reads tr'
  end.

Fixpoint writes (tr : list event) : list Z :=
  match tr with
  | [] => []
  | EvWrite n _ :: tr' => n :: writes tr'
  | _ :: tr' => writes tr'
  end.

(** The length of the body: the bytes the response writer accepted. *)
Fixpoint body_length (tr : list event) : Z :=
  match tr with
  | [] => 0
  | EvWrite _ r :: tr' => io_n r + body_length tr'
  | _ :: tr' => body_length tr'
  end.

Definition opened (tr : list event) : bool :=
  existsb (fun ev => match ev with EvOpen => true | _ => false end) tr.

(** Whether the content type was set to [application/octet-stream]
    before the status was sent. *)
Fixpoint octet_stream (tr : list event) : bool :=
  match tr with
  | [] => false
  | EvSetHeader k v :: tr' =>
      (String.eqb k "Content-Type"%string && String.eqb v "application/octet-stream"%string)
      || octet_stream tr'
  | EvWriteHeader _ :: _ => false
  | _ :: tr' => octet_stream tr'
  end.

(** An environment where the source opens and every read and write
    transfers the whole buffer. *)
Definition io_full (e : env) : Prop :=
  forall i n, read_res e i n = mk_io n false /\ write_res e i n = mk_io n false.

Definition env_ok : env :=
  mk_env true (fun _ n => mk_io n false) (fun _ n => mk_io n false) alloc_16g.

(** A request with a huge [buffer]: [make] panics after the status. *)
Definition q_huge_buffer : query :=
  [("size"%string, "1"%string); ("buffer"%string, "281474976710657"%string)].

(** A request [?size=5&buffer=2]. *)
Definition q_5_2 : query := [("size"%string, "5"%string); ("buffer"%string, "2"%string)].

(** An environment whose source does not open. *)
Definition env_no_open : env :=
  mk_env false (fun _ n => mk_io n false) (fun _ n => mk_io n false) alloc_16g.

(** An environment whose first read fails. *)
Definition env_read_fails : env :=
  mk_env true (fun _ _ => mk_io 0 true) (fun _ n => mk_io n false) alloc_16g.

(** An environment whose reads of index 2 and later fail. *)
Definition env_third_read_fails : env :=
  mk_env true (fun i n => if (i <? 2)%nat then mk_io n false else mk_io 0 true)
    (fun _ n => mk_io n false) alloc_16g.

(** An environment whose write of index 1 fails after accepting one byte. *)
Definition env_second_write_short : env :=
  mk_env true (fun _ n => mk_io n false)
    (fun i n => if (i =? 1)%nat then mk_io 1 true else mk_io n false) alloc_16g.

(** A request with [buffer = maxAlloc]: [make] does not panic, but no
    host can serve it. *)
Definition q_max_buffer : query :=
  [("size"%string, "1"%string); ("buffer"%string, "281474976710656"%string)].

(** A request [?size=] whose [size] is present with an empty value. *)
Definition q_empty_size : query := [("size"%string, EmptyString)].

(** Requests with a non-integer [size] or [buffer]. *)
Definition q_size_abc : query := [("size"%string, "abc"%string)].

Definition q_buffer_xyz : query := [("size"%string, "5"%string); ("buffer"%string, "xyz"%string)].

(** Whether [key] occurs in the query at all. *)
Definition query_has (q : query) (key : string) : bool :=
  existsb (fun kv => String.eqb (fst kv) key) q.

(** The query without any occurrence of [key]. *)
Definition remove_param (q : query) (key : string) : query :=
  filter (fun kv => negb (String.eqb (fst kv) key)) q.

(** Requests with [size=0], a negative [size], [buffer=0] or a
    negative [buffer]. *)
Definition q_zero : query := [("size"%string, "0"%string)].

Definition q_zero_huge : query :=
  [("size"%string, "0"%string); ("buffer"%string, "281474976710657"%string)].

Definition q_neg : query := [("size"%string, "-1"%string)].

Definition q_neg_2 : query := [("size"%string, "-1"%string); ("buffer"%string, "2"%string)].

Definition q_neg_abc : query := [("size"%string, "-1"%string); ("buffer"%string, "abc"%string)].

Definition q_neg_huge : query :=
  [("size"%string, "-1"%string); ("buffer"%string, "281474976710657"%string)].

Definition q_buf0 : query := [("size"%string, "5"%string); ("buffer"%string, "0"%string)].

Definition q_negbuf : query := [("size"%string, "5"%string); ("buffer"%string, "-1"%string)].

(** ** Chunk lists *)

(** The chunks of a full transfer of [S] bytes with a buffer of [B]
    bytes: [S / B] full buffers and the remainder, if any. *)
Definition spec_chunks (S B : Z) : list Z :=
  repeat B (Z.to_nat (S / B)) ++ (if S mod B =? 0 then [] else [S mod B]).

(** The events of a chunk that was read and written in full. *)
Definition chunk_events (cs : list Z) : list event :=
  flat_map (fun c => [EvRead c (mk_io c false); EvWrite c (mk_io c false)]) cs.

Definition sum_list (l : list Z) : Z := fold_right Z.add 0 l.

(** ** Further observations on a trace *)

Definition count_write_header (tr : list event) : nat :=
  List.length (filter (fun ev => match ev with EvWriteHeader _ => true | _ => false end) tr).

Definition count_close (tr : list event) : nat :=
  List.length (filter (fun ev => match ev with EvClose => true | _ => false end) tr).

(** Whether the handler got to run its deferred calls: it returned or
    panicked. *)
Definition finished (o : outcome) : bool :=
  match o with Returned | Panicked => true | OutOfFuel | Fatal => false end.

(** The bytes of one loop iteration: [readSize] for [pendingSize = p]. *)
Definition read_size (p B : Z) : Z := if p >? B then B else p.

(** The events of the iteration that made the loop abort, entered with
    [pendingSize = p]: a read that failed or came back short, or a full
    read followed by a write that failed or came back short. *)
Definition aborted_tail (e : env) (B p : Z) (tl : list event) : Prop :=
  let c := read_size p B in
  (exists i, tl = [EvRead c (read_res e i c)] /\
     (io_failed (read_res e i c) = true \/ io_n (read_res e i c) <> c)) \/
  (exists i, read_res e i c = mk_io c false /\
     tl = [EvRead c (mk_io c false); EvWrite c (write_res e i c)] /\
     (io_failed (write_res e i c) = true \/ io_n (write_res e i c) <> c)).

(** ** [strconv.FormatInt(v, 10)] on [int64] values

    The decimal rendering a client writes into the query string: no
    sign for [v >= 0], a minus sign otherwise, no leading zero.  An
    [int64] has at most 19 digits, so 19 levels of recursion suffice. *)
Definition digit_char (d : Z) : ascii := ascii_of_nat (48 + Z.to_nat d).

Fixpoint format_uint (fuel : nat) (n : Z) : string :=
  match fuel with
  | O => EmptyString
  | S f =>
      if n <? 10 then String (digit_char n) EmptyString
      else append (format_uint f (n / 10)) (String (digit_char (n mod 10)) EmptyString)
  end.

Definition format_int (v : Z) : string :=
  if v <? 0 then String "-"%char (format_uint 19 (- v)) else format_uint 19 v.

(** ** [main]

    [main] creates a temporary directory, writes the embedded certificate
    and key into it with mode [0o600], and serves the handler over TLS on
    [defaultListenAddress].  Startup failures call [os.Exit(1)]; an error
    from [ListenAndServeTLS] is only logged, after which [main] returns.
    The operating system is an oracle: the directory [MkdirTemp] returns
    ([None] on error), whether each [WriteFile] succeeds, and whether
    [ListenAndServeTLS] returns at all (it serves until it fails). *)
Definition defaultListenAddress : string := ":8443"%string.

(** [filepath.Join(dir, name)], kept as its two components. *)
Record path := mk_path { path_dir : string; path_name : string }.

(** The embedded constants [tlsCrt] and [tlsKey]. *)
Inductive pem := TlsCrt | TlsKey.

Record os_env := mk_os {
  mkdir_temp : option string;
  write_file_ok : path -> bool;
  listen_returns : bool
}.

Inductive mevent :=
| MEvMkdirTemp (dir pattern : string)        (* os.MkdirTemp(dir, pattern) *)
| MEvWriteFile (p : path) (data : pem) (perm : Z)  (* os.WriteFile(p, data, perm) *)
| MEvListen (addr : string) (crt key : path)  (* http.ListenAndServeTLS(addr, crt, key, handler) *)
| MEvExit (code : Z).                        (* os.Exit(code) *)

Inductive main_outcome :=
| MainExited (code : Z)   (* os.Exit was called *)
| MainReturned            (* main returned: the process exits with status 0 *)
| MainServing.            (* ListenAndServeTLS never returns *)

Definition perm_0600 : Z := 6 * 64 + 0 * 8 + 0.

Definition main_go (o : os_env) : list mevent * main_outcome :=
  let mk := MEvMkdirTemp EmptyString ".tls"%string in
  match mkdir_temp o with
  | None => ([mk; MEvExit 1], MainExited 1)
  | Some tlsDir =>
      let tlsCrtFile := mk_path tlsDir "tls.crt"%string in
      let w1 := MEvWriteFile tlsCrtFile TlsCrt perm_0600 in
      if negb (write_file_ok o tlsCrtFile) then ([mk; w1; MEvExit 1], MainExited 1)
      else
        let tlsKeyFile := mk_path tlsDir "tls.key"%string in
        let w2 := MEvWriteFile tlsKeyFile TlsKey perm_0600 in
        if negb (write_file_ok o tlsKeyFile) then ([mk; w1; w2; MEvExit 1], MainExited 1)
        else
          let l := MEvListen defaultListenAddress tlsCrtFile tlsKeyFile in
          if listen_returns o then ([mk; w1; w2; l], MainReturned)
          else ([mk; w1; w2; l], MainServing)
  end.

(** The exit status of the process, once it ends. *)
Definition exit_status (o : main_outcome) : option Z :=
  match o with
  | MainExited c => Some c
  | MainReturned => Some 0
  | MainServing => None
  end.

Definition listens (tr : list mevent) : bool :=
  existsb (fun ev => match ev with MEvListen _ _ _ => true | _ => false end) tr.

Definition os_ok : os_env := mk_os (Some "/tmp/.tls123"%string) (fun _ => true) true.

(** ** Sanity checks on small inputs *)

Example parse_int_ex :
  parse_int "42"%string = Some 42 /\ parse_int "-7"%string = Some (-7) /\ parse_int "+3"%string = Some 3
  /\ parse_int "abc"%string = None /\ parse_int "-"%string = None
  /\ parse_int "9223372036854775807"%string = Some 9223372036854775807
  /\ parse_int "9223372036854775808"%string = None
  /\ parse_int "-9223372036854775808"%string = Some (-9223372036854775808).
Proof. vm_compute. repeat split. Qed.

Example serve_ex :
  serve_http 10 env_ok [("size"%string, "5"%string); ("buffer"%string, "2"%string)] =
  mk_result Returned
    (headers_200 ++
     [EvRead 2 (mk_io 2 false); EvWrite 2 (mk_io 2 false);
      EvRead 2 (mk_io 2 false); EvWrite 2 (mk_io 2 false);
      EvRead 1 (mk_io 1 false); EvWrite 1 (mk_io 1 false); EvClose]).
Proof. vm_compute. reflexivity. Qed.

(** [buffer = maxAlloc] passes [makeslice]'s length check, but the heap
    cannot hold it: after the status the process dies, without [Close];
    [buffer = maxAlloc + 1] panics instead, and the [Close] runs. *)
Example serve_max_buffer_ex :
  serve_http 10 env_ok q_max_buffer = mk_result Fatal headers_200 /\
  serve_http 10 env_ok q_huge_buffer = mk_result Panicked (headers_200 ++ [EvClose]).
Proof. vm_compute. split; reflexivity. Qed.

Example format_int_ex :
  format_int 0 = "0"%string /\ format_int 1073741824 = "1073741824"%string /\
  format_int (-32768) = "-32768"%string /\
  format_int (-9223372036854775808) = "-9223372036854775808"%string.
Proof. vm_compute. repeat split. Qed.

Example main_ex :
  main_go os_ok =
    ([MEvMkdirTemp EmptyString ".tls"%string;
      MEvWriteFile (mk_path "/tmp/.tls123"%string "tls.crt"%string) TlsCrt 384;
      MEvWriteFile (mk_path "/tmp/.tls123"%string "tls.key"%string) TlsKey 384;
      MEvListen ":8443"%string (mk_path "/tmp/.tls123"%string "tls.crt"%string)
        (mk_path "/tmp/.tls123"%string "tls.key"%string)], MainReturned).
Proof. reflexivity. Qed.

(** ** Lemmas on the observations *)

Lemma reads_app : forall t1 t2, reads (t1 ++ t2) = reads t1 ++ reads t2.
Proof. induction t1 as [|[] t1 IH]; intros; simpl; try rewrite IH; reflexivity. Qed.

Lemma writes_app : forall t1 t2, writes (t1 ++ t2) = writes t1 ++ writes t2.
Proof. induction t1 as [|[] t1 IH]; intros; simpl; try rewrite IH; reflexivity. Qed.

Lemma body_length_app : forall t1 t2,
  body_length (t1 ++ t2) = body_length t1 + body_length t2.
Proof. induction t1 as [|[] t1 IH]; intros; simpl; try rewrite IH; lia. Qed.

Lemma reads_chunk_events : forall cs, reads (chunk_events cs) = cs.
Proof. induction cs as [|c cs IH]; simpl; [reflexivity | now rewrite IH]. Qed.

Lemma writes_chunk_events : forall cs, writes (chunk_events cs) = cs.
Proof. induction cs as [|c cs IH]; simpl; [reflexivity | now rewrite IH]. Qed.

Lemma body_length_chunk_events : forall cs, body_length (chunk_events cs) = sum_list cs.
Proof. induction cs as [|c cs IH]; simpl; [reflexivity | rewrite IH; lia]. Qed.

Lemma status_headers_200 : forall t, status (headers_200 ++ t) = Some 200.
Proof. reflexivity. Qed.

Lemma octet_stream_headers_200 : forall t, octet_stream (headers_200 ++ t) = true.
Proof. reflexivity. Qed.

(** ** Lemmas on [spec_chunks] *)

Lemma spec_chunks_zero : forall B, 1 <= B -> spec_chunks 0 B = [].
Proof.
  intros B HB. unfold spec_chunks.
  rewrite Z.div_0_l, Z.mod_0_l by lia. reflexivity.
Qed.

(** One iteration of the loop peels the first chunk off. *)
Lemma spec_chunks_cons : forall p B, 0 < p -> 1 <= B ->
  spec_chunks p B =
  (if p >? B then B else p) :: spec_chunks (p - (if p >? B then B else p)) B.
Proof.
  intros p B Hp HB. unfold spec_chunks.
  destruct (Z.gtb_spec p B) as [Hgt|Hle].
  - assert (Hd : p / B = (p - B) / B + 1).
    { replace p with ((p - B) + 1 * B) at 1 by lia.
      rewrite Z.div_add by lia. reflexivity. }
    assert (Hm : p mod B = (p - B) mod B).
    { replace p with ((p - B) + 1 * B) at 1 by lia.
      rewrite Z.mod_add by lia. reflexivity. }
    assert (Hpos : 0 <= (p - B) / B) by (apply Z.div_pos; lia).
    rewrite Hd, Hm, Z2Nat.inj_add by lia. simpl.
    rewrite Nat.add_1_r. reflexivity.
  - destruct (Z.eq_dec p B) as [->|Hne].
    + rewrite Z.div_same, Z.mod_same by lia. rewrite Z.sub_diag.
      rewrite Z.div_0_l, Z.mod_0_l by lia. reflexivity.
    + rewrite Z.div_small, Z.mod_small by lia. rewrite Z.sub_diag.
      rewrite Z.div_0_l, Z.mod_0_l by lia.
      destruct (Z.eqb_spec p 0); [lia|]. reflexivity.
Qed.

Lemma spec_chunks_sum : forall S B, 0 <= S -> 1 <= B -> sum_list (spec_chunks S B) = S.
Proof.
  intros S B HS HB. unfold spec_chunks, sum_list.
  rewrite fold_right_app.
  assert (Hr : forall n acc, fold_right Z.add acc (repeat B n) = Z.of_nat n * B + acc).
  { induction n; intros; [simpl; lia|]. cbn [repeat fold_right]. rewrite IHn, Nat2Z.inj_succ. ring. }
  rewrite Hr. pose proof (Z.div_mod S B ltac:(lia)) as Hdm.
  assert (0 <= S / B) by (apply Z.div_pos; lia).
  rewrite Z2Nat.id by lia.
  destruct (Z.eqb_spec (S mod B) 0); simpl; lia.
Qed.

Lemma spec_chunks_length : forall S B, 0 <= S -> 1 <= B ->
  Z.of_nat (List.length (spec_chunks S B)) = (S + B - 1) / B.
Proof.
  intros S B HS HB. unfold spec_chunks.
  rewrite length_app, repeat_length, Nat2Z.inj_add.
  pose proof (Z.div_mod S B ltac:(lia)) as Hdm.
  pose proof (Z.mod_pos_bound S B ltac:(lia)) as Hmb.
  assert (0 <= S / B) by (apply Z.div_pos; lia).
  rewrite Z2Nat.id by lia.
  destruct (Z.eqb_spec (S mod B) 0) as [H0|H0]; simpl.
  - apply (Z.div_unique _ _ _ (B - 1)); lia.
  - apply (Z.div_unique _ _ _ (S mod B - 1)); lia.
Qed.

Lemma spec_chunks_nth : forall S B i, 0 <= S -> 1 <= B ->
  (i < List.length (spec_chunks S B))%nat ->
  nth i (spec_chunks S B) 0 = Z.min (S - Z.of_nat i * B) B.
Proof.
  intros S B i HS HB Hi. unfold spec_chunks in *.
  pose proof (Z.div_mod S B ltac:(lia)) as Hdm.
  pose proof (Z.mod_pos_bound S B ltac:(lia)) as Hmb.
  assert (0 <= S / B) by (apply Z.div_pos; lia).
  rewrite length_app, repeat_length in Hi.
  destruct (Nat.ltb_spec i (Z.to_nat (S / B))) as [Hlt|Hge].
  - rewrite app_nth1 by (rewrite repeat_length; lia).
    rewrite nth_repeat_lt by assumption.
    assert (Z.of_nat i + 1 <= S / B) by lia.
    assert (B * (Z.of_nat i + 1) <= B * (S / B)) by (apply Z.mul_le_mono_nonneg_l; lia).
    lia.
  - rewrite app_nth2 by (rewrite repeat_length; lia).
    rewrite repeat_length.
    destruct (Z.eqb_spec (S mod B) 0) as [H0|H0]; simpl in Hi; [lia|].
    assert (i = Z.to_nat (S / B)) by lia. subst i.
    rewrite Nat.sub_diag. simpl. rewrite Z2Nat.id by lia. lia.
Qed.

Lemma spec_chunks_last : forall S B, 0 < S -> 1 <= B ->
  last (spec_chunks S B) 0 = if S mod B =? 0 then B else S mod B.
Proof.
  intros S B HS HB. unfold spec_chunks.
  destruct (Z.eqb_spec (S mod B) 0) as [H0|H0].
  - rewrite app_nil_r.
    pose proof (Z.div_mod S B ltac:(lia)) as Hdm.
    assert (0 <= S / B) by (apply Z.div_pos; lia).
    assert (1 <= S / B).
    { destruct (Z.eq_dec (S / B) 0) as [E|E]; [rewrite E in Hdm; lia | lia]. }
    destruct (Z.to_nat (S / B)) as [|n] eqn:Hn; [lia|].
    clear. induction n as [|n IH]; [reflexivity|].
    cbn [repeat] in *. exact IH.
  - apply last_last.
Qed.

(** ** The loop when every transfer succeeds *)

Section FullTransfer.

Variable e : env.
Hypothesis He : io_full e.
Variable B : Z.
Hypothesis HB : 1 <= B.

Lemma read_size_bounds : forall p, 0 < p ->
  1 <= (if p >? B then B else p) <= p /\ (if p >? B then B else p) = Z.min p B.
Proof. intros p Hp. destruct (Z.gtb_spec p B); lia. Qed.

(** With enough fuel the loop sends exactly [spec_chunks p B]. *)
Lemma run_loop_full : forall fuel st,
  0 <= pending st -> (Z.to_nat (pending st) <= fuel)%nat ->
  exists n, run_loop fuel e B st =
    (LoopDone, mk_lstate 0 n (trace st ++ chunk_events (spec_chunks (pending st) B))).
Proof.
  induction fuel as [|fuel IH]; intros [p i tr] Hp Hf; cbn [pending trace iter] in *.
  - assert (p = 0) by lia. subst p. exists i.
    rewrite spec_chunks_zero, app_nil_r by exact HB. reflexivity.
  - cbn [run_loop pending].
    destruct (Z.gtb_spec p 0) as [Hpos|Hle].
    + unfold step. cbn [pending iter trace].
      destruct (read_size_bounds p Hpos) as [Hrs _].
      set (rs := if p >? B then B else p) in *.
      destruct (He i rs) as [Hr Hw]. rewrite Hr, Hw. cbn [io_failed io_n].
      rewrite Z.eqb_refl. cbn [negb].
      destruct (IH (mk_lstate (p - rs) (Datatypes.S i) ((tr ++ [EvRead rs (mk_io rs false)]) ++ [EvWrite rs (mk_io rs false)])))
        as [n Hn]; cbn [pending]; [lia|lia|].
      exists n. rewrite Hn. cbn [trace pending].
      rewrite (spec_chunks_cons p B Hpos HB). fold rs.
      rewrite <- !app_assoc. reflexivity.
    + assert (p = 0) by lia. subst p. exists i.
      rewrite spec_chunks_zero, app_nil_r by exact HB. reflexivity.
Qed.

End FullTransfer.

(** ** Unfolding [serve_http] past the parameters and the open *)

Lemma serve_http_loop : forall fuel e q S B,
  get_param q "size"%string defaultDataSize = Some S ->
  get_param q "buffer"%string defaultBufferSize = Some B ->
  open_ok e = true -> make_panics B = false -> alloc_fails e B = false ->
  serve_http fuel e q =
    match run_loop fuel e B (mk_lstate S 0 headers_200) with
    | (LoopOutOfFuel, st) => mk_result OutOfFuel (trace st)
    | (_, st) => mk_result Returned (trace st ++ [EvClose])
    end.
Proof.
  intros fuel e q S B Hs Hb Ho Hm Ha. unfold serve_http.
  rewrite Hs, Hb, Ho, Hm. cbn [negb]. rewrite Ha. reflexivity.
Qed.

Lemma make_panics_false : forall B, 0 <= B <= maxAlloc -> make_panics B = false.
Proof.
  intros B HB. unfold make_panics.
  destruct (Z.ltb_spec B 0), (Z.ltb_spec maxAlloc B); simpl; lia.
Qed.

(** A full transfer: the trace of [serve_http]. *)
Lemma serve_http_full : forall fuel e q S B,
  get_param q "size"%string defaultDataSize = Some S ->
  get_param q "buffer"%string defaultBufferSize = Some B ->
  0 <= S -> 1 <= B <= maxAlloc -> alloc_fails e B = false ->
  open_ok e = true -> io_full e -> (Z.to_nat S <= fuel)%nat ->
  serve_http fuel e q =
    mk_result Returned (headers_200 ++ chunk_events (spec_chunks S B) ++ [EvClose]).
Proof.
  intros fuel e q S B Hs Hb HS HB Ha Ho He Hf.
  rewrite (serve_http_loop fuel e q S B Hs Hb Ho) by (assumption || (apply make_panics_false; lia)).
  destruct (run_loop_full e He B ltac:(lia) fuel (mk_lstate S 0 headers_200))
    as [n Hn]; cbn [pending]; [lia|lia|].
  rewrite Hn. cbn [trace pending]. rewrite <- app_assoc. reflexivity.
Qed.

Lemma io_full_env_ok : io_full env_ok.
Proof. intros i n. split; reflexivity. Qed.

Lemma observe_full : forall cs,
  reads (headers_200 ++ chunk_events cs ++ [EvClose]) = cs /\
  writes (headers_200 ++ chunk_events cs ++ [EvClose]) = cs /\
  body_length (headers_200 ++ chunk_events cs ++ [EvClose]) = sum_list cs.
Proof.
  intros cs.
  rewrite !reads_app, !writes_app, !body_length_app,
    reads_chunk_events, writes_chunk_events, body_length_chunk_events.
  cbn. rewrite !app_nil_r. repeat split; lia.
Qed.

Lemma spec_chunks_nth_full : forall S B i, 0 <= S -> 1 <= B ->
  (Datatypes.S i < List.length (spec_chunks S B))%nat ->
  nth i (spec_chunks S B) 0 = B.
Proof.
  intros S B i HS HB Hi. unfold spec_chunks in *.
  rewrite length_app, repeat_length in Hi.
  assert (Hlt : (i < Z.to_nat (S / B))%nat)
    by (destruct (S mod B =? 0); simpl in Hi; lia).
  rewrite app_nth1 by (rewrite repeat_length; lia).
  apply nth_repeat_lt. exact Hlt.
Qed.

(** * Claims *)

(** ** C1 *)

(** C1 (counterexample): with [size=1] and [buffer=2^48+1] (so [S >= 0]
    and [B >= 1]), the source opening and every transfer succeeding, the
    handler does not send one byte: [make] panics after the status. *)
Lemma C1_huge_buffer_panics :
  get_param q_huge_buffer "size"%string defaultDataSize = Some 1 /\
  get_param q_huge_buffer "buffer"%string defaultBufferSize = Some 281474976710657 /\
  1 <= 281474976710657 /\ open_ok env_ok = true /\ io_full env_ok /\
  forall fuel,
    res_outcome (serve_http fuel env_ok q_huge_buffer) = Panicked /\
    body_length (res_trace (serve_http fuel env_ok q_huge_buffer)) = 0.
Proof.
  repeat split; try reflexivity; try lia; apply io_full_env_ok.
Qed.

(** C1 (amended): when [size] resolves to [S >= 0], [buffer] to [B] with
    [1 <= B <= maxAlloc], [make([]byte, B)] gets its memory, the source
    opens and every read and write succeeds in full, the handler returns after sending status 200 with
    Content-Type application/octet-stream and a body of exactly [S]
    bytes (given fuel for the [S] iterations the loop takes at most). *)
Theorem serve_http_body_length : forall fuel e q S B,
  get_param q "size"%string defaultDataSize = Some S ->
  get_param q "buffer"%string defaultBufferSize = Some B ->
  0 <= S -> 1 <= B <= maxAlloc -> alloc_fails e B = false ->
  open_ok e = true -> io_full e -> (Z.to_nat S <= fuel)%nat ->
  res_outcome (serve_http fuel e q) = Returned /\
  status (res_trace (serve_http fuel e q)) = Some 200 /\
  octet_stream (res_trace (serve_http fuel e q)) = true /\
  body_length (res_trace (serve_http fuel e q)) = S.
Proof.
  intros fuel e q S B Hs Hb HS HB Ha Ho He Hf.
  rewrite (serve_http_full fuel e q S B Hs Hb HS HB Ha Ho He Hf). cbn [res_outcome res_trace].
  destruct (observe_full (spec_chunks S B)) as (_ & _ & Hl).
  rewrite Hl, spec_chunks_sum by lia.
  repeat split; reflexivity.
Qed.

Lemma serve_http_body_length_witness :
  res_outcome (serve_http 5 env_ok q_5_2) = Returned /\
  status (res_trace (serve_http 5 env_ok q_5_2)) = Some 200 /\
  octet_stream (res_trace (serve_http 5 env_ok q_5_2)) = true /\
  body_length (res_trace (serve_http 5 env_ok q_5_2)) = 5.
Proof.
  apply (serve_http_body_length 5 env_ok q_5_2 5 2);
    [reflexivity | reflexivity | lia | vm_compute; split; discriminate | reflexivity
    | reflexivity | apply io_full_env_ok | simpl; lia].
Defined.

(** ** C2 *)

(** C2 (counterexample): with [S >= 0] and [B >= 1] the chunk count is
    not always [ceil(S / B)]: not when the source fails to open
    ([?size=5&buffer=2], no chunk), not when the first read fails (one
    read, no write), and not when [make] panics on a huge buffer. *)
Lemma C2_chunk_count_fails :
  reads (res_trace (serve_http 10 env_no_open q_5_2)) = [] /\
  writes (res_trace (serve_http 10 env_read_fails q_5_2)) = [] /\
  reads (res_trace (serve_http 10 env_ok q_huge_buffer)) = [] /\
  (5 + 2 - 1) / 2 = 3 /\ (1 + 281474976710657 - 1) / 281474976710657 = 1.
Proof. vm_compute. repeat split. Qed.

(** C2 (amended): when [size] resolves to [S >= 0], [buffer] to [B] with
    [1 <= B <= maxAlloc], [make([]byte, B)] gets its memory, the source
    opens and every read and write
    succeeds in full, the reads and the writes have the same lengths;
    there are [ceil(S / B)] of them (none when [S = 0]); the [i]-th has
    length [min(S - i*B, B)], that is [min(remaining, B)]; all but the
    last have length [B]; the last has length [S mod B], or [B] when
    [S mod B = 0]. *)
Theorem serve_http_chunks : forall fuel e q S B,
  get_param q "size"%string defaultDataSize = Some S ->
  get_param q "buffer"%string defaultBufferSize = Some B ->
  0 <= S -> 1 <= B <= maxAlloc -> alloc_fails e B = false ->
  open_ok e = true -> io_full e -> (Z.to_nat S <= fuel)%nat ->
  let tr := res_trace (serve_http fuel e q) in
  reads tr = writes tr /\
  Z.of_nat (List.length (reads tr)) = (S + B - 1) / B /\
  (forall i, (i < List.length (reads tr))%nat ->
     nth i (reads tr) 0 = Z.min (S - Z.of_nat i * B) B) /\
  (forall i, (Datatypes.S i < List.length (reads tr))%nat -> nth i (reads tr) 0 = B) /\
  (0 < S -> last (reads tr) 0 = if S mod B =? 0 then B else S mod B).
Proof.
  intros fuel e q S B Hs Hb HS HB Ha Ho He Hf tr. subst tr.
  rewrite (serve_http_full fuel e q S B Hs Hb HS HB Ha Ho He Hf). cbn [res_trace].
  destruct (observe_full (spec_chunks S B)) as (Hr & Hw & _).
  rewrite Hr, Hw.
  split; [reflexivity|].
  split; [apply spec_chunks_length; lia|].
  split; [intros i Hi; apply spec_chunks_nth; lia|].
  split; [intros i Hi; apply spec_chunks_nth_full; lia|].
  intros HS'. apply spec_chunks_last; lia.
Qed.

Lemma serve_http_chunks_witness :
  let tr := res_trace (serve_http 5 env_ok q_5_2) in
  reads tr = writes tr /\
  Z.of_nat (List.length (reads tr)) = (5 + 2 - 1) / 2 /\
  (forall i, (i < List.length (reads tr))%nat ->
     nth i (reads tr) 0 = Z.min (5 - Z.of_nat i * 2) 2) /\
  (forall i, (Datatypes.S i < List.length (reads tr))%nat -> nth i (reads tr) 0 = 2) /\
  (0 < 5 -> last (reads tr) 0 = if 5 mod 2 =? 0 then 2 else 5 mod 2).
Proof.
  apply (serve_http_chunks 5 env_ok q_5_2 5 2);
    [reflexivity | reflexivity | lia | vm_compute; split; discriminate | reflexivity
    | reflexivity | apply io_full_env_ok | simpl; lia].
Defined.

(** ** C3 *)

(** C3 (counterexample): [?size=] has the [size] parameter present with
    a value that is not a base-10 integer (the empty string), yet
    [Get] returns the empty string, the default size is used, the source
    is opened and the status is 200. *)
Lemma C3_empty_size_not_rejected :
  query_has q_empty_size "size"%string = true /\
  parse_int (query_get q_empty_size "size"%string) = None /\
  status (res_trace (serve_http 10 env_read_fails q_empty_size)) = Some 200 /\
  opened (res_trace (serve_http 10 env_read_fails q_empty_size)) = true.
Proof. vm_compute. repeat split. Qed.

Lemma query_get_remove_same : forall q k, query_get (remove_param q k) k = EmptyString.
Proof.
  induction q as [|[k' v] q IH]; intros k; [reflexivity|].
  cbn [remove_param filter fst]. unfold remove_param in IH.
  destruct (String.eqb_spec k' k) as [->|Hne]; cbn [negb].
  - apply IH.
  - cbn [query_get]. destruct (String.eqb_spec k' k); [contradiction | apply IH].
Qed.

Lemma query_get_remove_other : forall q k k', k' <> k ->
  query_get (remove_param q k) k' = query_get q k'.
Proof.
  induction q as [|[k0 v] q IH]; intros k k' Hne; [reflexivity|].
  cbn [remove_param filter fst query_get]. unfold remove_param in IH.
  destruct (String.eqb_spec k0 k) as [->|Hk]; cbn [negb query_get].
  - destruct (String.eqb_spec k k'); [congruence | apply IH; exact Hne].
  - rewrite IH by exact Hne. reflexivity.
Qed.

Lemma query_has_remove_param : forall q k, query_has (remove_param q k) k = false.
Proof.
  induction q as [|[k' v] q IH]; intros k; [reflexivity|].
  cbn [remove_param filter fst]. unfold remove_param, query_has in *.
  destruct (String.eqb_spec k' k) as [->|Hne]; cbn [negb].
  - apply IH.
  - cbn [existsb fst]. destruct (String.eqb_spec k' k); [contradiction | apply IH].
Qed.

(** C3 (amended): when the first value of [size], or of [buffer], is a
    non-empty string that [strconv.ParseInt(_, 10, 64)] rejects (not an
    optionally signed run of decimal digits, or outside the [int64]
    range), the handler returns after [WriteHeader(400)] and nothing else:
    no body, and the byte source is not opened.  When the first value of
    [size] (or [buffer]) is empty, the default is used, and the handler
    does exactly what it does on the same query with that parameter
    removed altogether ([query_has_remove_param]): an empty value counts
    as absent. *)
Theorem serve_http_bad_param : forall fuel e q,
  ((query_get q "size"%string <> EmptyString /\ parse_int (query_get q "size"%string) = None) \/
   (query_get q "buffer"%string <> EmptyString /\ parse_int (query_get q "buffer"%string) = None) ->
   serve_http fuel e q = mk_result Returned [EvWriteHeader 400]) /\
  (query_get q "size"%string = EmptyString ->
   get_param q "size"%string defaultDataSize = Some defaultDataSize /\
   serve_http fuel e q = serve_http fuel e (remove_param q "size"%string)) /\
  (query_get q "buffer"%string = EmptyString ->
   get_param q "buffer"%string defaultBufferSize = Some defaultBufferSize /\
   serve_http fuel e q = serve_http fuel e (remove_param q "buffer"%string)).
Proof.
  intros fuel e q. split; [|split].
  - intros Hbad. unfold serve_http, get_param.
    destruct Hbad as [[Hne Hp]|[Hne Hp]].
    + destruct (query_get q "size"%string) as [|c s] eqn:E; [contradiction|].
      rewrite Hp. reflexivity.
    + destruct (query_get q "size"%string) as [|c s];
        [|destruct (parse_int (String c s)); [|reflexivity]];
        (destruct (query_get q "buffer"%string) as [|c' s']; [contradiction|]);
        rewrite Hp; reflexivity.
  - intros Hs. unfold get_param. rewrite Hs. split; [reflexivity|].
    unfold serve_http, get_param.
    rewrite query_get_remove_same, query_get_remove_other by discriminate.
    rewrite Hs. reflexivity.
  - intros Hb. unfold get_param. rewrite Hb. split; [reflexivity|].
    unfold serve_http, get_param.
    rewrite query_get_remove_same, query_get_remove_other by discriminate.
    rewrite Hb. reflexivity.
Qed.

Lemma serve_http_bad_param_witness :
  serve_http 10 env_ok q_size_abc = mk_result Returned [EvWriteHeader 400] /\
  serve_http 10 env_ok q_buffer_xyz = mk_result Returned [EvWriteHeader 400] /\
  (get_param q_empty_size "size"%string defaultDataSize = Some defaultDataSize /\
   serve_http 10 env_read_fails q_empty_size =
     serve_http 10 env_read_fails (remove_param q_empty_size "size"%string)).
Proof.
  split; [|split].
  - apply (proj1 (serve_http_bad_param 10 env_ok q_size_abc)). left. split; [discriminate | reflexivity].
  - apply (proj1 (serve_http_bad_param 10 env_ok q_buffer_xyz)). right. split; [discriminate | reflexivity].
  - apply (proj1 (proj2 (serve_http_bad_param 10 env_read_fails q_empty_size))).
    reflexivity.
Defined.

(** ** Full chunks followed by a failing read *)

Lemma run_loop_prefix : forall e B j fuel st,
  0 <= B ->
  (forall t, (t < j)%nat ->
     read_res e (iter st + t) B = mk_io B false /\
     write_res e (iter st + t) B = mk_io B false) ->
  pending st - Z.of_nat j * B > 0 -> (j <= fuel)%nat ->
  run_loop fuel e B st =
  run_loop (fuel - j) e B
    (mk_lstate (pending st - Z.of_nat j * B) (iter st + j)
       (trace st ++ chunk_events (repeat B j))).
Proof.
  intros e B j. induction j as [|j IH]; intros fuel [p i tr] HB Hio Hp Hf;
    cbn [pending iter trace] in *.
  - rewrite Nat.sub_0_r, Nat.add_0_r, Z.mul_0_l, Z.sub_0_r, app_nil_r. reflexivity.
  - destruct fuel as [|fuel]; [lia|].
    assert (HpB : p > B) by nia.
    cbn [run_loop pending]. replace (p >? 0) with true by (symmetry; apply Z.gtb_lt; lia).
    unfold step. cbn [pending iter trace].
    replace (p >? B) with true by (symmetry; apply Z.gtb_lt; lia).
    destruct (Hio 0%nat ltac:(lia)) as [Hr Hw]. rewrite Nat.add_0_r in Hr, Hw.
    rewrite Hr, Hw. cbn [io_failed io_n negb]. rewrite Z.eqb_refl. cbn [negb].
    rewrite IH; cbn [pending iter trace].
    + f_equal. f_equal; [lia | lia |].
      rewrite <- !app_assoc. reflexivity.
    + exact HB.
    + intros t Ht. replace (Datatypes.S i + t)%nat with (i + Datatypes.S t)%nat by lia.
      apply Hio. lia.
    + lia.
    + lia.
Qed.

(** ** C4 *)

(** C4: let the first [k - 1] chunks be read and written in full, and
    the [k]-th read (of [c = min(S - (k-1)*B, B)] bytes, still needed
    since [(k-1)*B < S]) fail or come back short; that a [k]-th read
    happens at all presupposes that [make([]byte, B)] got its memory
    (otherwise the process dies before the loop).  Then the handler has
    written exactly the [k - 1] chunks, the failed read is its last I/O
    (no further read, no write of the partial chunk), and the deferred
    [Close] runs as it returns. *)
Theorem serve_http_read_failure : forall fuel e q S B k,
  get_param q "size"%string defaultDataSize = Some S ->
  get_param q "buffer"%string defaultBufferSize = Some B ->
  0 <= B <= maxAlloc -> alloc_fails e B = false -> open_ok e = true ->
  (1 <= k)%nat -> Z.of_nat (k - 1) * B < S ->
  (forall j, (j < k - 1)%nat ->
     read_res e j B = mk_io B false /\ write_res e j B = mk_io B false) ->
  let c := Z.min (S - Z.of_nat (k - 1) * B) B in
  io_failed (read_res e (k - 1) c) = true \/ io_n (read_res e (k - 1) c) <> c ->
  (k <= fuel)%nat ->
  serve_http fuel e q =
    mk_result Returned
      (headers_200 ++ chunk_events (repeat B (k - 1)) ++
       [EvRead c (read_res e (k - 1) c); EvClose]) /\
  List.length (writes (res_trace (serve_http fuel e q))) = (k - 1)%nat.
Proof.
  intros fuel e q S B k Hs Hb HB Ha Ho Hk Hpos Hio c Hbad Hf.
  assert (Hrun : serve_http fuel e q =
    mk_result Returned
      (headers_200 ++ chunk_events (repeat B (k - 1)) ++
       [EvRead c (read_res e (k - 1) c); EvClose])).
  { rewrite (serve_http_loop fuel e q S B Hs Hb Ho) by (assumption || (apply make_panics_false; lia)).
    rewrite (run_loop_prefix e B (k - 1) fuel (mk_lstate S 0 headers_200));
      cbn [pending iter trace]; [| lia | exact Hio | lia | lia].
    destruct (fuel - (k - 1))%nat as [|f] eqn:Ef; [lia|].
    cbn [run_loop pending].
    replace (S - Z.of_nat (k - 1) * B >? 0) with true by (symmetry; apply Z.gtb_lt; lia).
    unfold step. cbn [pending iter trace].
    assert (Hc : (if S - Z.of_nat (k - 1) * B >? B then B else S - Z.of_nat (k - 1) * B) = c).
    { subst c. destruct (Z.gtb_spec (S - Z.of_nat (k - 1) * B) B); lia. }
    rewrite Hc.
    destruct (read_res e (0 + (k - 1)) c) as [n failed] eqn:Er.
    cbn [Nat.add] in Er. rewrite Er in Hbad. cbn [io_failed io_n] in *.
    destruct failed.
    - cbn. rewrite Er, <- !app_assoc. reflexivity.
    - destruct Hbad as [Hbad|Hbad]; [discriminate|].
      destruct (Z.eqb_spec n c) as [Hnc|Hnc]; [contradiction|].
      cbn. rewrite Er, <- !app_assoc. reflexivity. }
  split; [exact Hrun|].
  rewrite Hrun. cbn [res_trace].
  rewrite !writes_app, writes_chunk_events. cbn.
  rewrite app_nil_r, repeat_length. reflexivity.
Qed.

(** Reads of index 2 and later fail: after 2 of the 3 chunks of
    [?size=5&buffer=2]. *)
Lemma serve_http_read_failure_witness :
  serve_http 10 env_third_read_fails q_5_2 =
    mk_result Returned
      (headers_200 ++ chunk_events (repeat 2 (3 - 1)) ++
       [EvRead (Z.min (5 - Z.of_nat (3 - 1) * 2) 2) (mk_io 0 true); EvClose]) /\
  List.length (writes (res_trace (serve_http 10 env_third_read_fails q_5_2))) = (3 - 1)%nat.
Proof.
  apply (serve_http_read_failure 10 env_third_read_fails q_5_2 5 2 3);
    [reflexivity | reflexivity | vm_compute; split; discriminate | reflexivity | reflexivity
    | lia | simpl; lia | | left; reflexivity | lia].
  intros j Hj. cbn [read_res write_res env_third_read_fails].
  destruct (Nat.ltb_spec j 2); [split; reflexivity | lia].
Defined.

(** ** C5 *)

(** C5: when both parameters parse and [os.Open] fails, the handler
    returns after [WriteHeader(500)]: no body, no read, no write. *)
Theorem serve_http_open_failure : forall fuel e q S B,
  get_param q "size"%string defaultDataSize = Some S ->
  get_param q "buffer"%string defaultBufferSize = Some B ->
  open_ok e = false ->
  serve_http fuel e q = mk_result Returned [EvOpenFailed; EvWriteHeader 500].
Proof.
  intros fuel e q S B Hs Hb Ho. unfold serve_http.
  rewrite Hs, Hb, Ho. reflexivity.
Qed.

Lemma serve_http_open_failure_witness :
  serve_http 10 env_no_open q_5_2 = mk_result Returned [EvOpenFailed; EvWriteHeader 500].
Proof.
  apply (serve_http_open_failure 10 env_no_open q_5_2 5 2); reflexivity.
Defined.

(** ** C6 *)

Lemma step_pending : forall e B st st',
  step e B st = Continue st' -> pending st' = pending st - Z.min (pending st) B.
Proof.
  intros e B [p i tr] st' H. unfold step in H. cbn [pending iter trace] in *.
  set (rs := if p >? B then B else p) in H.
  assert (Hrs : rs = Z.min p B) by (subst rs; destruct (Z.gtb_spec p B); lia).
  destruct (io_failed _); [discriminate|].
  destruct (negb _); [discriminate|].
  destruct (io_failed _); [discriminate|].
  destruct (negb _); [discriminate|].
  injection H as <-. cbn [pending]. rewrite Hrs. reflexivity.
Qed.

Lemma step_abort_pending : forall e B st st',
  step e B st = Abort st' -> pending st' = pending st.
Proof.
  intros e B [p i tr] st' H. unfold step in H. cbn [pending iter trace] in *.
  repeat (destruct (io_failed _) || destruct (negb _));
    try discriminate; injection H as <-; reflexivity.
Qed.

Lemma run_loop_bounds : forall e B fuel st, 1 <= B -> 0 <= pending st ->
  0 <= pending (snd (run_loop fuel e B st)) <= pending st /\
  (fst (run_loop fuel e B st) = LoopDone -> pending (snd (run_loop fuel e B st)) = 0).
Proof.
  intros e B fuel. induction fuel as [|fuel IH]; intros st HB Hp; cbn [run_loop].
  - destruct (Z.gtb_spec (pending st) 0); cbn [fst snd]; split; try lia; discriminate.
  - destruct (Z.gtb_spec (pending st) 0) as [Hpos|Hle]; cbn [fst snd].
    + destruct (step e B st) as [st'|st'] eqn:Hs.
      * pose proof (step_pending e B st st' Hs) as Hst'.
        destruct (IH st' HB) as [H1 H2]; [lia|].
        split; [lia | exact H2].
      * cbn [fst snd]. rewrite (step_abort_pending e B st st' Hs).
        split; [lia | discriminate].
    + split; [lia | intros _; lia].
Qed.

Lemma run_loop_monotone : forall e B fuel st, 1 <= B ->
  pending (snd (run_loop (Datatypes.S fuel) e B st)) <= pending (snd (run_loop fuel e B st)).
Proof.
  intros e B fuel. induction fuel as [|fuel IH]; intros st HB.
  - cbn [run_loop]. destruct (Z.gtb_spec (pending st) 0) as [Hpos|Hle]; cbn [snd]; [|lia].
    destruct (step e B st) as [st'|st'] eqn:Hs.
    + pose proof (step_pending e B st st' Hs). cbn [run_loop].
      destruct (pending st' >? 0); cbn [snd]; lia.
    + cbn [snd]. rewrite (step_abort_pending e B st st' Hs). lia.
  - cbn [run_loop].
    destruct (pending st >? 0); cbn [snd]; [|lia].
    destruct (step e B st) as [st'|st']; [apply IH; exact HB | cbn [snd]; lia].
Qed.

(** C6: the loop of [serve_http] starts from [pendingSize := dataSize]
    with [S >= 0] and [B >= 1].  Each iteration that goes on subtracts
    the chunk length [min(pendingSize, B)] and leaves [pendingSize] in
    [0 .. old value); the counter after any number of iterations is
    between [0] and [S], never grows from one iteration count to the
    next, and is [0] when the loop ends normally. *)
Theorem copy_loop_pending : forall e S B, 0 <= S -> 1 <= B ->
  (forall st st', 0 < pending st -> step e B st = Continue st' ->
     pending st' = pending st - Z.min (pending st) B /\ 0 <= pending st' < pending st) /\
  (forall fuel,
     let r := run_loop fuel e B (mk_lstate S 0 headers_200) in
     0 <= pending (snd r) <= S /\
     pending (snd (run_loop (Datatypes.S fuel) e B (mk_lstate S 0 headers_200)))
       <= pending (snd r) /\
     (fst r = LoopDone -> pending (snd r) = 0)).
Proof.
  intros e S B HS HB. split.
  - intros st st' Hp Hs. rewrite (step_pending e B st st' Hs). lia.
  - intros fuel r. subst r.
    destruct (run_loop_bounds e B fuel (mk_lstate S 0 headers_200) HB HS) as [H1 H2].
    split; [exact H1|]. split; [apply run_loop_monotone; exact HB | exact H2].
Qed.

Lemma copy_loop_pending_witness :
  (forall st st', 0 < pending st -> step env_ok 2 st = Continue st' ->
     pending st' = pending st - Z.min (pending st) 2 /\ 0 <= pending st' < pending st) /\
  (forall fuel,
     let r := run_loop fuel env_ok 2 (mk_lstate 5 0 headers_200) in
     0 <= pending (snd r) <= 5 /\
     pending (snd (run_loop (Datatypes.S fuel) env_ok 2 (mk_lstate 5 0 headers_200)))
       <= pending (snd r) /\
     (fst r = LoopDone -> pending (snd r) = 0)).
Proof. apply (copy_loop_pending env_ok 5 2); lia. Defined.

(** ** A size of zero or less *)

Lemma serve_http_nonpositive_size : forall fuel e q S B,
  get_param q "size"%string defaultDataSize = Some S -> S <= 0 ->
  get_param q "buffer"%string defaultBufferSize = Some B -> 0 <= B <= maxAlloc ->
  alloc_fails e B = false -> open_ok e = true ->
  serve_http fuel e q = mk_result Returned (headers_200 ++ [EvClose]).
Proof.
  intros fuel e q S B Hs HS Hb HB Ha Ho.
  rewrite (serve_http_loop fuel e q S B Hs Hb Ho) by (assumption || (apply make_panics_false; lia)).
  destruct fuel; cbn [run_loop pending];
    (destruct (Z.gtb_spec S 0); [lia | reflexivity]).
Qed.

(** ** C7 *)

(** C7 (counterexample): [?size=0] with a source that does not open
    answers 500, and [?size=0&buffer=2^48+1] panics in [make]. *)
Lemma C7_zero_size_not_200 :
  get_param q_zero "size"%string defaultDataSize = Some 0 /\
  get_param q_zero "buffer"%string defaultBufferSize = Some 32768 /\
  status (res_trace (serve_http 10 env_no_open q_zero)) = Some 500 /\
  get_param q_zero_huge "buffer"%string defaultBufferSize = Some 281474976710657 /\
  res_outcome (serve_http 10 env_ok q_zero_huge) = Panicked.
Proof. vm_compute. repeat split. Qed.

(** C7 (amended): when [size] resolves to [0], [buffer] to [B] with
    [0 <= B <= maxAlloc], [make([]byte, B)] gets its memory and the
    source opens, the handler returns with
    status 200, the octet-stream content type and an empty body, and
    performs no read and no write. *)
Theorem serve_http_zero_size : forall fuel e q B,
  get_param q "size"%string defaultDataSize = Some 0 ->
  get_param q "buffer"%string defaultBufferSize = Some B -> 0 <= B <= maxAlloc ->
  alloc_fails e B = false -> open_ok e = true ->
  let r := serve_http fuel e q in
  res_outcome r = Returned /\ status (res_trace r) = Some 200 /\
  octet_stream (res_trace r) = true /\ body_length (res_trace r) = 0 /\
  reads (res_trace r) = [] /\ writes (res_trace r) = [].
Proof.
  intros fuel e q B Hs Hb HB Ha Ho r. subst r.
  rewrite (serve_http_nonpositive_size fuel e q 0 B Hs ltac:(lia) Hb HB Ha Ho).
  repeat split.
Qed.

Lemma serve_http_zero_size_witness :
  let r := serve_http 10 env_ok q_zero in
  res_outcome r = Returned /\ status (res_trace r) = Some 200 /\
  octet_stream (res_trace r) = true /\ body_length (res_trace r) = 0 /\
  reads (res_trace r) = [] /\ writes (res_trace r) = [].
Proof.
  apply (serve_http_zero_size 10 env_ok q_zero 32768);
    [reflexivity | reflexivity | vm_compute; split; discriminate | reflexivity | reflexivity].
Defined.

(** ** C8 *)

(** C8: with [size] resolving to [S > 0], [buffer] to [0] and the source
    open, and zero-length reads and writes succeeding (as [os.File.Read]
    and [ResponseWriter.Write] do on an empty slice), every iteration
    reads and writes [0] bytes and leaves [pendingSize] unchanged, so no
    amount of fuel lets the loop end: the handler never returns. *)
Theorem serve_http_zero_buffer_diverges : forall e q S,
  get_param q "size"%string defaultDataSize = Some S -> 0 < S ->
  get_param q "buffer"%string defaultBufferSize = Some 0 ->
  open_ok e = true ->
  (forall i, read_res e i 0 = mk_io 0 false /\ write_res e i 0 = mk_io 0 false) ->
  (forall st, 0 < pending st ->
     step e 0 st =
       Continue (mk_lstate (pending st) (Datatypes.S (iter st))
                   (trace st ++ [EvRead 0 (mk_io 0 false); EvWrite 0 (mk_io 0 false)]))) /\
  (forall fuel,
     serve_http fuel e q = mk_result OutOfFuel (headers_200 ++ chunk_events (repeat 0 fuel))).
Proof.
  intros e q S Hs HS Hb Ho Hz. split.
  - intros [p i tr] Hp. cbn [pending iter trace] in *. unfold step. cbn [pending iter trace].
    replace (p >? 0) with true by (symmetry; apply Z.gtb_lt; lia).
    destruct (Hz i) as [Hr Hw]. rewrite Hr, Hw. cbn.
    rewrite Z.sub_0_r, <- app_assoc. reflexivity.
  - intros fuel.
    (* [make([]byte, 0)] neither panics nor allocates *)
    rewrite (serve_http_loop fuel e q S 0 Hs Hb Ho) by reflexivity.
    rewrite (run_loop_prefix e 0 fuel fuel (mk_lstate S 0 headers_200));
      cbn [pending iter trace]; [| lia | intros t _; apply Hz | lia | lia].
    rewrite Nat.sub_diag. cbn [run_loop pending].
    replace (S - Z.of_nat fuel * 0 >? 0) with true by (symmetry; apply Z.gtb_lt; lia).
    reflexivity.
Qed.

Lemma serve_http_zero_buffer_diverges_witness :
  (forall st, 0 < pending st ->
     step env_ok 0 st =
       Continue (mk_lstate (pending st) (Datatypes.S (iter st))
                   (trace st ++ [EvRead 0 (mk_io 0 false); EvWrite 0 (mk_io 0 false)]))) /\
  (forall fuel,
     serve_http fuel env_ok q_buf0 =
       mk_result OutOfFuel (headers_200 ++ chunk_events (repeat 0 fuel))).
Proof.
  apply (serve_http_zero_buffer_diverges env_ok q_buf0 5);
    [reflexivity | lia | reflexivity | reflexivity | intros i; split; reflexivity].
Defined.

(** ** C9 *)

(** C9: when [buffer] parses to a negative [B] and the source opens
    (so [size] parsed too), the handler is not answered 400: it sets the
    content type, sends status 200, then [make([]byte, B)] panics; the
    deferred [Close] runs while the panic unwinds. *)
Theorem serve_http_negative_buffer_panics : forall fuel e q S B,
  get_param q "size"%string defaultDataSize = Some S ->
  get_param q "buffer"%string defaultBufferSize = Some B -> B < 0 ->
  open_ok e = true ->
  serve_http fuel e q = mk_result Panicked (headers_200 ++ [EvClose]) /\
  status (res_trace (serve_http fuel e q)) = Some 200.
Proof.
  intros fuel e q S B Hs Hb HB Ho.
  assert (Hm : make_panics B = true).
  { unfold make_panics. destruct (Z.ltb_spec B 0); [reflexivity | lia]. }
  assert (H : serve_http fuel e q = mk_result Panicked (headers_200 ++ [EvClose])).
  { unfold serve_http. rewrite Hs, Hb, Ho, Hm. reflexivity. }
  split; [exact H | rewrite H; reflexivity].
Qed.

Lemma serve_http_negative_buffer_panics_witness :
  serve_http 10 env_ok q_negbuf = mk_result Panicked (headers_200 ++ [EvClose]) /\
  status (res_trace (serve_http 10 env_ok q_negbuf)) = Some 200.
Proof.
  apply (serve_http_negative_buffer_panics 10 env_ok q_negbuf 5 (-1));
    [reflexivity | reflexivity | lia | reflexivity].
Defined.

(** ** C10 *)

(** C10 (counterexample): a negative [size] is not always answered 200
    with an empty body: not when [buffer] does not parse (400), not when
    the source does not open (500), and not when [make] panics on a huge
    buffer. *)
Lemma C10_negative_size_not_200 :
  get_param q_neg_abc "size"%string defaultDataSize = Some (-1) /\
  status (res_trace (serve_http 10 env_ok q_neg_abc)) = Some 400 /\
  get_param q_neg "size"%string defaultDataSize = Some (-1) /\
  status (res_trace (serve_http 10 env_no_open q_neg)) = Some 500 /\
  get_param q_neg_huge "size"%string defaultDataSize = Some (-1) /\
  res_outcome (serve_http 10 env_ok q_neg_huge) = Panicked.
Proof. vm_compute. repeat split. Qed.

(** C10 (amended): when [size] parses to a negative [S], [buffer]
    resolves to [B] with [0 <= B <= maxAlloc], [make([]byte, B)] gets
    its memory and the source opens, the
    handler accepts the request: it opens the source, sends status 200
    with the octet-stream content type, the loop guard fails at once, and
    it returns with an empty body and no read or write. *)
Theorem serve_http_negative_size : forall fuel e q S B,
  get_param q "size"%string defaultDataSize = Some S -> S < 0 ->
  get_param q "buffer"%string defaultBufferSize = Some B -> 0 <= B <= maxAlloc ->
  alloc_fails e B = false -> open_ok e = true ->
  let r := serve_http fuel e q in
  res_outcome r = Returned /\ opened (res_trace r) = true /\
  status (res_trace r) = Some 200 /\ octet_stream (res_trace r) = true /\
  body_length (res_trace r) = 0 /\ reads (res_trace r) = [] /\ writes (res_trace r) = [].
Proof.
  intros fuel e q S B Hs HS Hb HB Ha Ho r. subst r.
  rewrite (serve_http_nonpositive_size fuel e q S B Hs ltac:(lia) Hb HB Ha Ho).
  repeat split.
Qed.

Lemma serve_http_negative_size_witness :
  let r := serve_http 10 env_ok q_neg_2 in
  res_outcome r = Returned /\ opened (res_trace r) = true /\
  status (res_trace r) = Some 200 /\ octet_stream (res_trace r) = true /\
  body_length (res_trace r) = 0 /\ reads (res_trace r) = [] /\ writes (res_trace r) = [].
Proof.
  apply (serve_http_negative_size 10 env_ok q_neg_2 (-1) 2);
    [reflexivity | lia | reflexivity | vm_compute; split; discriminate | reflexivity
    | reflexivity].
Defined.

(** * Further properties of the code *)

(** ** [strconv.ParseInt] *)

Lemma parse_digits_nonneg : forall s acc v,
  0 <= acc -> parse_digits s acc = Some v -> 0 <= v.
Proof.
  induction s as [|c s IH]; intros acc v Hacc H; cbn [parse_digits] in H.
  - injection H as <-. exact Hacc.
  - destruct (digit_val c) as [d|] eqn:Ed; [|discriminate].
    assert (0 <= d).
    { revert Ed. unfold digit_val. destruct (_ && _); intro Ed; [|discriminate].
      injection Ed as <-. lia. }
    eapply IH; [|exact H]; lia.
Qed.

(** X1: whatever [strconv.ParseInt(s, 10, 64)] accepts is an [int64]:
    the handler's [size] and [buffer] lie in [-2^63, 2^63). *)
Theorem parse_int_range : forall s v,
  parse_int s = Some v -> - cutoff <= v < cutoff.
Proof.
  intros [|c rest] v H; [discriminate|]. unfold parse_int in H.
  assert (Hu : forall b un, parse_uint b = Some un -> 0 <= un).
  { intros [|c' b'] un Hb; [discriminate|]. unfold parse_uint in Hb.
    eapply parse_digits_nonneg; [|exact Hb]; lia. }
  assert (Hc : 0 < cutoff) by reflexivity.
  destruct (Ascii.eqb c "+"%char); [|destruct (Ascii.eqb c "-"%char)];
    (destruct (parse_uint _) as [un|] eqn:E; [|discriminate]);
    pose proof (Hu _ _ E);
    (lazymatch type of H with
     | context [un >? cutoff] => destruct (Z.gtb_spec un cutoff)
     | context [un >=? cutoff] => destruct (Z.geb_spec un cutoff)
     end); try discriminate; injection H as <-; lia.
Qed.

Lemma parse_int_range_witness :
  parse_int "-9223372036854775808"%string = Some (-9223372036854775808) /\
  - cutoff <= -9223372036854775808 < cutoff.
Proof. split; [reflexivity | apply (parse_int_range "-9223372036854775808"%string); reflexivity]. Defined.

Lemma digit_val_digit_char : forall d, 0 <= d < 10 -> digit_val (digit_char d) = Some d.
Proof.
  intros d Hd. unfold digit_val, digit_char.
  rewrite nat_ascii_embedding by lia.
  replace ((48 <=? 48 + Z.to_nat d)%nat && (48 + Z.to_nat d <=? 57)%nat) with true
    by (symmetry; apply andb_true_intro; split; apply Nat.leb_le; lia).
  f_equal. lia.
Qed.

Lemma parse_digits_append : forall s1 s2 acc,
  parse_digits (append s1 s2) acc =
  match parse_digits s1 acc with Some v => parse_digits s2 v | None => None end.
Proof.
  induction s1 as [|c s1 IH]; intros s2 acc; cbn [append parse_digits]; [reflexivity|].
  destruct (digit_val c); [apply IH | reflexivity].
Qed.

(** The rendering starts with a digit and reads back as the number. *)
Lemma format_uint_parse : forall f n, (1 <= f)%nat -> 0 <= n < 10 ^ Z.of_nat f ->
  (exists c rest d, format_uint f n = String c rest /\ digit_val c = Some d) /\
  parse_digits (format_uint f n) 0 = Some n.
Proof.
  induction f as [|f IH]; intros n Hf Hn; [lia|].
  cbn [format_uint].
  destruct (Z.ltb_spec n 10) as [Hlt|Hge].
  - split.
    + exists (digit_char n), EmptyString, n. split; [reflexivity|].
      apply digit_val_digit_char; lia.
    + cbn [parse_digits]. rewrite digit_val_digit_char by lia. reflexivity.
  - assert (Hq : 1 <= n / 10) by (apply Z.div_le_lower_bound; lia).
    assert (Hf' : (1 <= f)%nat).
    { destruct f; [|lia]. simpl in Hn. lia. }
    assert (Hb : 0 <= n / 10 < 10 ^ Z.of_nat f).
    { split; [lia|]. apply Z.div_lt_upper_bound; [lia|].
      rewrite Nat2Z.inj_succ, Z.pow_succ_r in Hn by lia. lia. }
    destruct (IH (n / 10) Hf' Hb) as [(c & rest & d & Hfmt & Hd) Hp].
    split.
    + exists c, (append rest (String (digit_char (n mod 10)) EmptyString)), d.
      rewrite Hfmt. split; [reflexivity | exact Hd].
    + rewrite parse_digits_append, Hp. cbn [parse_digits].
      rewrite digit_val_digit_char by (apply Z.mod_pos_bound; lia).
      f_equal. pose proof (Z.div_mod n 10 ltac:(lia)). lia.
Qed.

(** X2: [strconv.ParseInt(_, 10, 64)] reads the decimal rendering of
    every [int64] value back as that value: a client that writes
    [size=N] or [buffer=N] in decimal gets exactly [N]. *)
Theorem parse_int_format_int : forall v, - cutoff <= v < cutoff ->
  parse_int (format_int v) = Some v.
Proof.
  intros v Hv.
  assert (Hc : cutoff = 9223372036854775808) by reflexivity.
  assert (H19 : 10 ^ Z.of_nat 19 = 10000000000000000000) by reflexivity.
  unfold format_int.
  destruct (Z.ltb_spec v 0) as [Hneg|Hpos].
  - destruct (format_uint_parse 19 (- v) ltac:(lia) ltac:(lia))
      as [(c & rest & d & Hfmt & Hd) Hp].
    cbn [parse_int]. replace (Ascii.eqb "-"%char "+"%char) with false by reflexivity.
    replace (Ascii.eqb "-"%char "-"%char) with true by reflexivity.
    cbv iota beta. unfold parse_uint. rewrite Hfmt. rewrite <- Hfmt, Hp.
    destruct (Z.gtb_spec (- v) cutoff); [lia|]. f_equal. lia.
  - destruct (format_uint_parse 19 v ltac:(lia) ltac:(lia))
      as [(c & rest & d & Hfmt & Hd) Hp].
    rewrite Hfmt. unfold parse_int.
    replace (Ascii.eqb c "+"%char) with false
      by (destruct (Ascii.eqb_spec c "+"%char); [subst c; discriminate | reflexivity]).
    replace (Ascii.eqb c "-"%char) with false
      by (destruct (Ascii.eqb_spec c "-"%char); [subst c; discriminate | reflexivity]).
    cbv iota beta. unfold parse_uint. rewrite <- Hfmt, Hp.
    destruct (Z.geb_spec v cutoff); [lia | reflexivity].
Qed.

Lemma parse_int_format_int_witness :
  parse_int (format_int (-32768)) = Some (-32768).
Proof.
  apply parse_int_format_int.
  assert (cutoff = 9223372036854775808) by reflexivity. lia.
Defined.

(** ** The request parameters *)

(** X3: the handler depends on the query only through the first values
    of [size] and [buffer]: other parameters, and later repetitions of
    these two, are ignored. *)
Theorem serve_http_first_values : forall fuel e q1 q2,
  query_get q1 "size"%string = query_get q2 "size"%string ->
  query_get q1 "buffer"%string = query_get q2 "buffer"%string ->
  serve_http fuel e q1 = serve_http fuel e q2.
Proof.
  intros fuel e q1 q2 Hs Hb. unfold serve_http, get_param.
  rewrite Hs, Hb. reflexivity.
Qed.

Lemma serve_http_first_values_witness :
  serve_http 10 env_ok q_5_2 =
  serve_http 10 env_ok (q_5_2 ++ [("size"%string, "7"%string); ("x"%string, "y"%string)]).
Proof. apply serve_http_first_values; reflexivity. Defined.

(** ** The shape of every run of the copy loop *)

Lemma read_size_le : forall p B, 0 < p -> read_size p B <= p.
Proof. intros p B Hp. unfold read_size. destruct (Z.gtb_spec p B); lia. Qed.

Lemma step_continue : forall e B st st',
  step e B st = Continue st' ->
  let c := read_size (pending st) B in
  read_res e (iter st) c = mk_io c false /\
  write_res e (iter st) c = mk_io c false /\
  st' = mk_lstate (pending st - c) (Datatypes.S (iter st))
          (trace st ++ [EvRead c (mk_io c false); EvWrite c (mk_io c false)]).
Proof.
  intros e B [p i tr] st' H c. unfold step in H. cbn [pending iter trace] in *.
  fold (read_size p B) in H. fold c in H |- *.
  destruct (read_res e i c) as [n1 f1] eqn:Er.
  destruct (write_res e i c) as [n2 f2] eqn:Ew.
  cbn [io_failed io_n] in H.
  destruct f1; [discriminate|]. destruct (Z.eqb_spec n1 c); [subst n1|discriminate].
  destruct f2; [discriminate|]. destruct (Z.eqb_spec n2 c); [subst n2|discriminate].
  injection H as <-. rewrite <- app_assoc. repeat split.
Qed.

Lemma step_abort : forall e B st st',
  step e B st = Abort st' ->
  exists tl, st' = mk_lstate (pending st) (iter st) (trace st ++ tl) /\
             aborted_tail e B (pending st) tl.
Proof.
  intros e B [p i tr] st' H. unfold step in H. cbn [pending iter trace] in *.
  fold (read_size p B) in H. unfold aborted_tail.
  set (c := read_size p B) in *.
  destruct (io_failed (read_res e i c)) eqn:F1.
  { injection H as <-. eexists. split; [reflexivity|]. left. exists i. split; [reflexivity|]. left. exact F1. }
  destruct (Z.eqb_spec (io_n (read_res e i c)) c) as [E1|E1]; cbn [negb] in H.
  2: { injection H as <-. eexists. split; [reflexivity|]. left. exists i. split; [reflexivity|]. right. exact E1. }
  assert (Hr : read_res e i c = mk_io c false)
    by (destruct (read_res e i c); cbn in *; subst; reflexivity).
  rewrite Hr in H.
  destruct (io_failed (write_res e i c)) eqn:F2.
  { injection H as <-. eexists. split; [rewrite <- app_assoc; reflexivity|].
    right. exists i. repeat split; [exact Hr|]. left. exact F2. }
  destruct (Z.eqb_spec (io_n (write_res e i c)) c) as [E2|E2]; cbn [negb] in H; [discriminate|].
  injection H as <-. eexists. split; [rewrite <- app_assoc; reflexivity|].
  right. exists i. repeat split; [exact Hr|]. right. exact E2.
Qed.

Lemma run_loop_shape : forall fuel e B st,
  let r := run_loop fuel e B st in
  exists cs tl,
    trace (snd r) = trace st ++ chunk_events cs ++ tl /\
    pending (snd r) = pending st - sum_list cs /\
    (cs <> [] -> 0 <= pending (snd r)) /\
    match fst r with
    | LoopAborted => 0 < pending (snd r) /\ aborted_tail e B (pending (snd r)) tl
    | LoopDone => tl = [] /\ pending (snd r) <= 0
    | LoopOutOfFuel => tl = [] /\ 0 < pending (snd r)
    end.
Proof.
  induction fuel as [|fuel IH]; intros e B st r; subst r; cbn [run_loop].
  - exists [], []. cbn [chunk_events flat_map sum_list fold_right].
    rewrite !app_nil_r, Z.sub_0_r.
    destruct (Z.gtb_spec (pending st) 0); cbn [fst snd];
      (split; [reflexivity | split; [reflexivity | split; [congruence | split; [reflexivity | lia]]]]).
  - destruct (Z.gtb_spec (pending st) 0) as [Hpos|Hle].
    + destruct (step e B st) as [st'|st'] eqn:Hs.
      * destruct (step_continue e B st st' Hs) as (_ & _ & ->).
        set (c := read_size (pending st) B).
        pose proof (read_size_le (pending st) B Hpos) as Hc. fold c in Hc.
        destruct (IH e B (mk_lstate (pending st - c) (Datatypes.S (iter st))
                   (trace st ++ [EvRead c (mk_io c false); EvWrite c (mk_io c false)])))
          as (cs & tl & Htr & Hp & Hnn & Hm).
        cbn [trace pending] in Htr, Hp.
        exists (c :: cs), tl.
        split; [rewrite Htr, <- !app_assoc; reflexivity|].
        split; [cbn [sum_list fold_right] in *; unfold sum_list in Hp; lia|].
        split; [|exact Hm].
        intros _. destruct cs as [|c' cs']; [|apply Hnn; discriminate].
        cbn in Hp. lia.
      * destruct (step_abort e B st st' Hs) as (tl & -> & Ht).
        exists [], tl. cbn [fst snd trace pending chunk_events flat_map sum_list fold_right].
        split; [reflexivity|]. split; [lia|]. split; [congruence|]. split; [lia | exact Ht].
    + exists [], []. cbn [fst snd chunk_events flat_map sum_list fold_right].
      rewrite !app_nil_r. split; [reflexivity|]. split; [lia|]. split; [congruence|].
      split; [reflexivity | lia].
Qed.

(** ** The shape of every run of the handler *)

(** X4: every run of the handler is one of: a 400 with nothing else; a
    failed open and a 500; the 200 headers, a panic in [make] and the
    [Close]; the 200 headers and a fatal out-of-memory error in [make],
    with no [Close]; or the 200 headers, a run of chunks each read in full and
    then written in full, at most one failed iteration (a failed or
    short read, or a full read and a failed or short write), and the
    [Close] once the handler has returned.  In particular nothing is
    written that was not first read in full, and nothing but [Close]
    follows a failure. *)
Theorem serve_http_shape : forall fuel e q,
  let r := serve_http fuel e q in
  r = mk_result Returned [EvWriteHeader 400] \/
  r = mk_result Returned [EvOpenFailed; EvWriteHeader 500] \/
  r = mk_result Panicked (headers_200 ++ [EvClose]) \/
  r = mk_result Fatal headers_200 \/
  exists B p cs tl,
    res_trace r = headers_200 ++ chunk_events cs ++ tl ++
                  (if finished (res_outcome r) then [EvClose] else []) /\
    res_outcome r <> Panicked /\ res_outcome r <> Fatal /\
    (tl = [] \/ (res_outcome r = Returned /\ aborted_tail e B p tl)).
Proof.
  intros fuel e q r. subst r. unfold serve_http.
  destruct (get_param q "size"%string defaultDataSize) as [S|]; [|left; reflexivity].
  destruct (get_param q "buffer"%string defaultBufferSize) as [B|]; [|left; reflexivity].
  destruct (open_ok e); cbn [negb]; [|right; left; reflexivity].
  destruct (make_panics B); [right; right; left; reflexivity|].
  destruct (alloc_fails e B); [right; right; right; left; reflexivity|].
  right; right; right; right.
  pose proof (run_loop_shape fuel e B (mk_lstate S 0 headers_200)) as Hsh. cbv zeta in Hsh.
  destruct (run_loop fuel e B (mk_lstate S 0 headers_200)) as [o st].
  cbn [fst snd trace] in Hsh. destruct Hsh as (cs & tl & Htr & _ & _ & Hm).
  destruct o; cbn [res_trace res_outcome finished].
  - destruct Hm as [-> _]. exists B, 0, cs, []. rewrite Htr, <- !app_assoc.
    split; [reflexivity|]. split; [discriminate|]. split; [discriminate | left; reflexivity].
  - destruct Hm as [_ Ht]. exists B, (pending st), cs, tl. rewrite Htr, <- !app_assoc.
    split; [reflexivity|]. split; [discriminate|].
    split; [discriminate | right; split; [reflexivity | exact Ht]].
  - destruct Hm as [-> _]. exists B, 0, cs, []. rewrite Htr, !app_nil_r.
    split; [reflexivity|]. split; [discriminate|]. split; [discriminate | left; reflexivity].
Qed.

Lemma count_write_header_app : forall t1 t2,
  count_write_header (t1 ++ t2) = (count_write_header t1 + count_write_header t2)%nat.
Proof. intros. unfold count_write_header. rewrite filter_app, length_app. reflexivity. Qed.

Lemma count_close_app : forall t1 t2,
  count_close (t1 ++ t2) = (count_close t1 + count_close t2)%nat.
Proof. intros. unfold count_close. rewrite filter_app, length_app. reflexivity. Qed.

Lemma opened_app : forall t1 t2, opened (t1 ++ t2) = opened t1 || opened t2.
Proof. intros. unfold opened. apply existsb_app. Qed.

Lemma chunk_events_counts : forall cs,
  count_write_header (chunk_events cs) = 0%nat /\ count_close (chunk_events cs) = 0%nat /\
  opened (chunk_events cs) = false.
Proof.
  induction cs as [|c cs IH]; [repeat split|].
  change (chunk_events (c :: cs))
    with ([EvRead c (mk_io c false); EvWrite c (mk_io c false)] ++ chunk_events cs).
  rewrite count_write_header_app, count_close_app, opened_app.
  destruct IH as (H1 & H2 & H3). rewrite H1, H2, H3. repeat split.
Qed.

Lemma tail_counts : forall e B p tl, tl = [] \/ aborted_tail e B p tl ->
  count_write_header tl = 0%nat /\ count_close tl = 0%nat /\ opened tl = false.
Proof.
  intros e B p tl [->|[(i & -> & _)|(i & _ & -> & _)]]; repeat split.
Qed.

(** X5: every run calls [WriteHeader] exactly once, with 200, 400 or
    500, and the status is 200 exactly when the byte source was opened. *)
Theorem serve_http_one_status : forall fuel e q,
  let tr := res_trace (serve_http fuel e q) in
  count_write_header tr = 1%nat /\
  (status tr = Some 200 \/ status tr = Some 400 \/ status tr = Some 500) /\
  (status tr = Some 200 <-> opened tr = true).
Proof.
  intros fuel e q tr. subst tr.
  destruct (serve_http_shape fuel e q)
    as [->|[->|[->|[->|(B & p & cs & tl & Htr & _ & _ & Htl)]]]];
    cbn [res_trace];
    try (split; [reflexivity | split; [auto | split; intro H; discriminate H || reflexivity]]).
  rewrite Htr.
  destruct (chunk_events_counts cs) as (C1 & _ & O1).
  assert (Ht : tl = [] \/ aborted_tail e B p tl) by (destruct Htl as [H|[_ H]]; auto).
  destruct (tail_counts e B p tl Ht) as (T1 & _ & _).
  split.
  - rewrite !count_write_header_app, C1, T1.
    destruct (finished _); reflexivity.
  - rewrite status_headers_200. split; [left; reflexivity|]. split; reflexivity.
Qed.

(** X6: the byte source is closed exactly when it was opened and the
    handler has finished (returned or panicked; not after a fatal
    error, which kills the process), and then exactly once,
    as the last thing the handler does. *)
Theorem serve_http_close_once : forall fuel e q,
  let r := serve_http fuel e q in
  count_close (res_trace r) =
    (if opened (res_trace r) && finished (res_outcome r) then 1 else 0)%nat /\
  (opened (res_trace r) && finished (res_outcome r) = true ->
     last (res_trace r) EvOpen = EvClose).
Proof.
  intros fuel e q r. subst r.
  destruct (serve_http_shape fuel e q)
    as [->|[->|[->|[->|(B & p & cs & tl & Htr & _ & _ & Htl)]]]];
    cbn [res_trace res_outcome];
    try (split; [reflexivity | intro H; first [discriminate H | reflexivity]]).
  rewrite Htr.
  destruct (chunk_events_counts cs) as (_ & C2 & _).
  assert (Ht : tl = [] \/ aborted_tail e B p tl) by (destruct Htl as [H|[_ H]]; auto).
  destruct (tail_counts e B p tl Ht) as (_ & T2 & _).
  rewrite !count_close_app, C2, T2.
  destruct (finished _).
  - split; [reflexivity|]. intros _.
    rewrite !app_assoc. apply last_last.
  - split; [reflexivity | intro H; rewrite andb_false_r in H; discriminate H].
Qed.

(** ** What the handler sends *)

(** X7: whatever the byte source and the client do, provided a write
    never reports more bytes than it was given (the [io.Writer]
    contract), the body never exceeds the requested [size] (and is empty
    for a negative one). *)
Theorem serve_http_body_bound : forall fuel e q S,
  get_param q "size"%string defaultDataSize = Some S ->
  (forall i n, io_n (write_res e i n) <= n) ->
  body_length (res_trace (serve_http fuel e q)) <= Z.max 0 S.
Proof.
  intros fuel e q S Hs Hw. unfold serve_http. rewrite Hs.
  destruct (get_param q "buffer"%string defaultBufferSize) as [B|]; [|cbn; lia].
  destruct (open_ok e); cbn [negb]; [|cbn; lia].
  destruct (make_panics B); [cbn; lia|].
  destruct (alloc_fails e B); [cbn; lia|].
  pose proof (run_loop_shape fuel e B (mk_lstate S 0 headers_200)) as Hsh. cbv zeta in Hsh.
  destruct (run_loop fuel e B (mk_lstate S 0 headers_200)) as [o st].
  cbn [fst snd trace pending] in Hsh. destruct Hsh as (cs & tl & Htr & Hp & Hnn & Hm).
  assert (Hbody : forall extra, body_length extra = 0 ->
            body_length (trace st ++ extra) = sum_list cs + body_length tl).
  { intros extra Hx. rewrite Htr, !body_length_app, body_length_chunk_events, Hx.
    cbn. lia. }
  assert (Hcs : 0 <= pending st -> sum_list cs <= S) by lia.
  assert (Hnil : cs = [] -> sum_list cs = 0) by (intros ->; reflexivity).
  destruct o; cbn [res_trace];
    [rewrite (Hbody [EvClose]) by reflexivity | rewrite (Hbody [EvClose]) by reflexivity
    | rewrite <- (app_nil_r (trace st)), (Hbody []) by reflexivity].
  - destruct Hm as [-> _]. cbn. destruct cs; [cbn; lia|].
    specialize (Hnn ltac:(discriminate)). lia.
  - destruct Hm as [Hpos [(i & -> & _)|(i & _ & -> & _)]].
    + cbn. lia.
    + cbn. specialize (Hw i (read_size (pending st) B)).
      pose proof (read_size_le (pending st) B Hpos). lia.
  - destruct Hm as [-> _]. cbn. destruct cs; [cbn; lia|].
    specialize (Hnn ltac:(discriminate)). lia.
Qed.

Lemma serve_http_body_bound_witness :
  body_length (res_trace (serve_http 10 env_ok q_5_2)) <= Z.max 0 5.
Proof.
  apply (serve_http_body_bound 10 env_ok q_5_2 5); [reflexivity | intros; cbn; lia].
Defined.

Lemma run_loop_terminates : forall fuel e B st, 1 <= B ->
  (Z.to_nat (pending st) <= fuel)%nat -> fst (run_loop fuel e B st) <> LoopOutOfFuel.
Proof.
  induction fuel as [|fuel IH]; intros e B st HB Hf; cbn [run_loop].
  - destruct (Z.gtb_spec (pending st) 0); [lia | discriminate].
  - destruct (Z.gtb_spec (pending st) 0) as [Hpos|Hle]; [|discriminate].
    destruct (step e B st) as [st'|st'] eqn:Hs; [|discriminate].
    destruct (step_continue e B st st' Hs) as (_ & _ & ->).
    apply IH; [exact HB|]. cbn [pending].
    unfold read_size. destruct (Z.gtb_spec (pending st) B); lia.
Qed.

(** X8: with [buffer >= 1] the copy loop ends after at most [size]
    iterations whatever the byte source and the client do: given that
    much fuel, the handler returns, panics or dies in [make]; it never
    hangs. *)
Theorem serve_http_terminates : forall fuel e q S B,
  get_param q "size"%string defaultDataSize = Some S ->
  get_param q "buffer"%string defaultBufferSize = Some B -> 1 <= B ->
  (Z.to_nat S <= fuel)%nat ->
  res_outcome (serve_http fuel e q) <> OutOfFuel.
Proof.
  intros fuel e q S B Hs Hb HB Hf. unfold serve_http. rewrite Hs, Hb.
  destruct (open_ok e); cbn [negb]; [|discriminate].
  destruct (make_panics B); [discriminate|].
  destruct (alloc_fails e B); [discriminate|].
  pose proof (run_loop_terminates fuel e B (mk_lstate S 0 headers_200) HB Hf) as Ht.
  destruct (run_loop fuel e B (mk_lstate S 0 headers_200)) as [[| |] st];
    cbn in *; congruence.
Qed.

Lemma serve_http_terminates_witness :
  res_outcome (serve_http 5 env_read_fails q_5_2) <> OutOfFuel.
Proof.
  apply (serve_http_terminates 5 env_read_fails q_5_2 5 2);
    [reflexivity | reflexivity | lia | simpl; lia].
Defined.

(** X9: let the first [k - 1] chunks go through in full, and the [k]-th
    chunk (of [c = min(S - (k-1)*B, B)] bytes) be read in full but its
    write fail or come back short.  Then the handler stops right after
    that write, with no further read, and closes the source; the body
    holds the [k - 1] chunks and what the failed write accepted. *)
Theorem serve_http_write_failure : forall fuel e q S B k,
  get_param q "size"%string defaultDataSize = Some S ->
  get_param q "buffer"%string defaultBufferSize = Some B ->
  0 <= B <= maxAlloc -> alloc_fails e B = false -> open_ok e = true ->
  (1 <= k)%nat -> Z.of_nat (k - 1) * B < S ->
  (forall j, (j < k - 1)%nat ->
     read_res e j B = mk_io B false /\ write_res e j B = mk_io B false) ->
  let c := Z.min (S - Z.of_nat (k - 1) * B) B in
  read_res e (k - 1) c = mk_io c false ->
  io_failed (write_res e (k - 1) c) = true \/ io_n (write_res e (k - 1) c) <> c ->
  (k <= fuel)%nat ->
  serve_http fuel e q =
    mk_result Returned
      (headers_200 ++ chunk_events (repeat B (k - 1)) ++
       [EvRead c (mk_io c false); EvWrite c (write_res e (k - 1) c); EvClose]) /\
  body_length (res_trace (serve_http fuel e q)) =
    Z.of_nat (k - 1) * B + io_n (write_res e (k - 1) c).
Proof.
  intros fuel e q S B k Hs Hb HB Ha Ho Hk Hpos Hio c Hr Hbad Hf.
  assert (Hrun : serve_http fuel e q =
    mk_result Returned
      (headers_200 ++ chunk_events (repeat B (k - 1)) ++
       [EvRead c (mk_io c false); EvWrite c (write_res e (k - 1) c); EvClose])).
  { rewrite (serve_http_loop fuel e q S B Hs Hb Ho) by (assumption || (apply make_panics_false; lia)).
    rewrite (run_loop_prefix e B (k - 1) fuel (mk_lstate S 0 headers_200));
      cbn [pending iter trace]; [| lia | exact Hio | lia | lia].
    destruct (fuel - (k - 1))%nat as [|f] eqn:Ef; [lia|].
    cbn [run_loop pending].
    replace (S - Z.of_nat (k - 1) * B >? 0) with true by (symmetry; apply Z.gtb_lt; lia).
    unfold step. cbn [pending iter trace].
    assert (Hc : (if S - Z.of_nat (k - 1) * B >? B then B else S - Z.of_nat (k - 1) * B) = c).
    { subst c. destruct (Z.gtb_spec (S - Z.of_nat (k - 1) * B) B); lia. }
    rewrite Hc. cbn [Nat.add]. rewrite Hr. cbn [io_failed io_n]. rewrite Z.eqb_refl.
    cbn [negb].
    destruct (write_res e (k - 1) c) as [n failed] eqn:Ew. cbn [io_failed io_n] in *.
    destruct failed.
    - cbn. rewrite <- !app_assoc. reflexivity.
    - destruct Hbad as [Hbad|Hbad]; [discriminate|].
      destruct (Z.eqb_spec n c) as [Hnc|Hnc]; [contradiction|].
      cbn. rewrite <- !app_assoc. reflexivity. }
  split; [exact Hrun|].
  rewrite Hrun. cbn [res_trace].
  rewrite !body_length_app, body_length_chunk_events. cbn.
  assert (Hrep : forall n, sum_list (repeat B n) = Z.of_nat n * B).
  { induction n; [reflexivity|]. cbn [repeat]. unfold sum_list in *. cbn [fold_right].
    rewrite IHn, Nat2Z.inj_succ. ring. }
  rewrite Hrep. lia.
Qed.

(** The write of index 1 fails after accepting one byte. *)
Lemma serve_http_write_failure_witness :
  serve_http 10 env_second_write_short q_5_2 =
    mk_result Returned
      (headers_200 ++ chunk_events (repeat 2 (2 - 1)) ++
       [EvRead (Z.min (5 - Z.of_nat (2 - 1) * 2) 2) (mk_io (Z.min (5 - Z.of_nat (2 - 1) * 2) 2) false);
        EvWrite (Z.min (5 - Z.of_nat (2 - 1) * 2) 2) (mk_io 1 true); EvClose]) /\
  body_length (res_trace (serve_http 10 env_second_write_short q_5_2)) =
    Z.of_nat (2 - 1) * 2 + io_n (mk_io 1 true).
Proof.
  apply (serve_http_write_failure 10 env_second_write_short q_5_2 5 2 2);
    [reflexivity | reflexivity | vm_compute; split; discriminate | reflexivity | reflexivity
    | lia | simpl; lia | | reflexivity | left; reflexivity | lia].
  intros j Hj. cbn [read_res write_res env_second_write_short].
  destruct (Nat.eqb_spec j 1); [lia | split; reflexivity].
Defined.

(** X10: without a [size] and a [buffer] parameter (absent or empty),
    an open source, a [make] that gets its 32 KiB, and transfers that
    succeed in full, the handler sends
    [defaultDataSize] = 1 GiB as 32768 chunks of [defaultBufferSize] =
    32 KiB each, and closes the source. *)
Theorem serve_http_defaults : forall fuel e q,
  query_get q "size"%string = EmptyString -> query_get q "buffer"%string = EmptyString ->
  alloc_ok e defaultBufferSize = true ->
  open_ok e = true -> io_full e -> (Z.to_nat defaultDataSize <= fuel)%nat ->
  let n := Z.to_nat (defaultDataSize / defaultBufferSize) in
  serve_http fuel e q =
    mk_result Returned (headers_200 ++ chunk_events (repeat defaultBufferSize n) ++ [EvClose]) /\
  reads (res_trace (serve_http fuel e q)) = repeat defaultBufferSize n /\
  writes (res_trace (serve_http fuel e q)) = repeat defaultBufferSize n /\
  body_length (res_trace (serve_http fuel e q)) = defaultDataSize /\
  defaultDataSize / defaultBufferSize = 32768 /\
  defaultBufferSize = 32768 /\ defaultDataSize = 1073741824.
Proof.
  intros fuel e q Hs Hb Hal Ho He Hf n.
  assert (Hs' : get_param q "size"%string defaultDataSize = Some defaultDataSize)
    by (unfold get_param; rewrite Hs; reflexivity).
  assert (Hb' : get_param q "buffer"%string defaultBufferSize = Some defaultBufferSize)
    by (unfold get_param; rewrite Hb; reflexivity).
  assert (HD : 0 <= defaultDataSize) by (vm_compute; discriminate).
  assert (HDB : 1 <= defaultBufferSize <= maxAlloc) by (vm_compute; split; discriminate).
  assert (Hc : spec_chunks defaultDataSize defaultBufferSize = repeat defaultBufferSize n).
  { unfold spec_chunks.
    replace (defaultDataSize mod defaultBufferSize =? 0) with true by reflexivity.
    apply app_nil_r. }
  assert (Ha : alloc_fails e defaultBufferSize = false)
    by (unfold alloc_fails; rewrite Hal; reflexivity).
  rewrite (serve_http_full fuel e q _ _ Hs' Hb' HD HDB Ha Ho He Hf).
  cbn [res_outcome res_trace].
  destruct (observe_full (spec_chunks defaultDataSize defaultBufferSize)) as (Hr & Hw & Hl).
  rewrite Hl, spec_chunks_sum in * by lia.
  rewrite Hc in *.
  repeat split; assumption || reflexivity.
Qed.

Lemma serve_http_defaults_witness :
  let n := Z.to_nat (defaultDataSize / defaultBufferSize) in
  serve_http (Z.to_nat defaultDataSize) env_ok [] =
    mk_result Returned (headers_200 ++ chunk_events (repeat defaultBufferSize n) ++ [EvClose]) /\
  reads (res_trace (serve_http (Z.to_nat defaultDataSize) env_ok [])) = repeat defaultBufferSize n /\
  writes (res_trace (serve_http (Z.to_nat defaultDataSize) env_ok [])) = repeat defaultBufferSize n /\
  body_length (res_trace (serve_http (Z.to_nat defaultDataSize) env_ok [])) = defaultDataSize /\
  defaultDataSize / defaultBufferSize = 32768 /\
  defaultBufferSize = 32768 /\ defaultDataSize = 1073741824.
Proof.
  apply serve_http_defaults;
    [reflexivity | reflexivity | reflexivity | reflexivity | apply io_full_env_ok
    | apply Nat.le_refl].
Defined.

(** X11: [main] reaches [ListenAndServeTLS] exactly when [MkdirTemp] and
    both [WriteFile] calls succeed; on any failure of the setup it ends
    with [os.Exit(1)] as its last action. *)
Theorem main_setup_failure : forall o,
  (listens (fst (main_go o)) = true <->
     exists d, mkdir_temp o = Some d /\
       write_file_ok o (mk_path d "tls.crt"%string) = true /\
       write_file_ok o (mk_path d "tls.key"%string) = true) /\
  (listens (fst (main_go o)) = false ->
     snd (main_go o) = MainExited 1 /\ last (fst (main_go o)) (MEvExit 0) = MEvExit 1).
Proof.
  intros [[d|] w r]; unfold main_go; cbn [mkdir_temp write_file_ok listen_returns].
  - destruct (w (mk_path d "tls.crt"%string)) eqn:Ec;
      [destruct (w (mk_path d "tls.key"%string)) eqn:Ek|]; cbn [negb];
      [destruct r| |]; cbn [fst snd listens existsb orb last];
      (split; [split|]).
    all: try (intros; eexists; split; [reflexivity | split; assumption]).
    all: try (intros [d' [Hd' [Hc Hk]]]; injection Hd' as <-; congruence).
    all: try (intro H; discriminate H).
    all: intros; split; reflexivity.
  - cbn. split; [split; [discriminate | intros [d [H _]]; discriminate H] | auto].
Qed.

(** X12: once the setup succeeds, [main] creates the temporary directory
    with pattern [.tls], writes [tls.crt] and then [tls.key] into it with
    mode 0o600, and listens on [:8443] with those two files.  If
    [ListenAndServeTLS] returns (it only returns with an error), [main]
    just logs and returns, so the process exits with status 0; otherwise
    it keeps serving. *)
Theorem main_serves : forall o d,
  mkdir_temp o = Some d ->
  write_file_ok o (mk_path d "tls.crt"%string) = true ->
  write_file_ok o (mk_path d "tls.key"%string) = true ->
  fst (main_go o) =
    [MEvMkdirTemp EmptyString ".tls"%string;
     MEvWriteFile (mk_path d "tls.crt"%string) TlsCrt 384;
     MEvWriteFile (mk_path d "tls.key"%string) TlsKey 384;
     MEvListen ":8443"%string (mk_path d "tls.crt"%string) (mk_path d "tls.key"%string)] /\
  exit_status (snd (main_go o)) = (if listen_returns o then Some 0 else None).
Proof.
  intros o d Hd Hc Hk. unfold main_go. rewrite Hd, Hc. cbn [negb]. rewrite Hk. cbn [negb].
  destruct (listen_returns o); split; reflexivity.
Qed.

Lemma main_serves_witness :
  fst (main_go os_ok) =
    [MEvMkdirTemp EmptyString ".tls"%string;
     MEvWriteFile (mk_path "/tmp/.tls123"%string "tls.crt"%string) TlsCrt 384;
     MEvWriteFile (mk_path "/tmp/.tls123"%string "tls.key"%string) TlsKey 384;
     MEvListen ":8443"%string (mk_path "/tmp/.tls123"%string "tls.crt"%string)
       (mk_path "/tmp/.tls123"%string "tls.key"%string)] /\
  exit_status (snd (main_go os_ok)) = (if listen_returns os_ok then Some 0 else None).
Proof.
  apply main_serves; reflexivity.
Defined.

(** X13: every file [main] writes is written with mode 0o600 into the
    directory [MkdirTemp] returned, and the files handed to
    [ListenAndServeTLS] are the certificate and the key it wrote, on
    [defaultListenAddress]. *)
Theorem main_files : forall o,
  (forall p data perm, In (MEvWriteFile p data perm) (fst (main_go o)) ->
     perm = perm_0600 /\ mkdir_temp o = Some (path_dir p)) /\
  (forall a c k, In (MEvListen a c k) (fst (main_go o)) ->
     a = defaultListenAddress /\
     In (MEvWriteFile c TlsCrt perm_0600) (fst (main_go o)) /\
     In (MEvWriteFile k TlsKey perm_0600) (fst (main_go o))).
Proof.
  intros [[d|] w r]; unfold main_go; cbn [mkdir_temp write_file_ok listen_returns].
  - destruct (w (mk_path d "tls.crt"%string));
      [destruct (w (mk_path d "tls.key"%string))|]; cbn [negb];
      [destruct r| |]; cbn [fst].
    all: split; intros * Hin; cbn [In] in Hin.
    all: repeat (destruct Hin as [Hin|Hin];
                 [first [discriminate Hin
                        | injection Hin; intros; subst; cbn [In path_dir]; repeat split; auto 10]|]).
    all: contradiction.
  - cbn [fst]. split; intros * Hin; cbn [In] in Hin;
      repeat (destruct Hin as [Hin|Hin]; [discriminate Hin|]); contradiction.
Qed.
